(** * FX summary service: retrieval with retry and fallback, and the
      percent-change summary (src/main.py)

    The development embeds three layers of the program:
    - the parts of the Python runtime that the arithmetic depends on
      (binary64 floats, [round(x, n)], [sum], [sorted] on strings);
    - the summarizer [safe_pct_change] / [calculate_summary], a pure function
      that either returns a [SummaryResponse] or raises;
    - the fetcher [fetch_with_retry], [load_fallback] and the endpoint
      [get_summary], written in a small state-and-exception monad over a
      world that records every network request, every sleep and every read
      of the snapshot file.

    Rates are Python floats (the annotations [rate: float],
    [all_rates: list[float]] of the source): IEEE binary64, modelled by the
    primitive floats of the Standard Library.  Strings are byte strings; dates
    are ASCII, where byte order is code-point order. *)

From Stdlib Require Import ZArith Floats.
From stdpp Require Import gmap strings list sorting.

#[local] Set Warnings "-inexact-float".
#[local] Open Scope Z_scope.

(** ** Python runtime: floats *)

(** Round-half-even quotient of [a / b] for [b > 0]. *)
Definition rne_div (a b : Z) : Z :=
  let q := a / b in
  let r := a mod b in
  match 2 * r ?= b with
  | Lt => q
  | Gt => q + 1
  | Eq => if Z.even q then q else q + 1
  end.

(** The integer nearest to [m * 2^e * 10^k], ties to even: the digits that
    the decimal conversion of [round] produces for a finite non-zero float
    of mantissa [m] and exponent [e]. *)
Definition scaled_round (m : positive) (e : Z) (k : N) : Z :=
  match e with
  | Zneg p => rne_div (Zpos m * 10 ^ Z.of_N k) (2 ^ Zpos p)
  | _ => Zpos m * 10 ^ Z.of_N k * 2 ^ e
  end.

(** The binary64 value nearest to [(-1)^s * n / 10^k], ties to even: the
    conversion of the decimal digits back to a float. *)
Definition nearest_double (s : bool) (n : Z) (k : N) : float :=
  match n with
  | Zpos p =>
      SF2Prim (SFdiv prec emax (S754_finite s p 0)
                 (S754_finite false (Z.to_pos (10 ^ Z.of_N k)) 0))
  | _ => SF2Prim (S754_zero s)
  end.

(** [round(x, ndigits)] on a float, for [ndigits >= 0]: NaN and the
    infinities round to themselves, beyond 323 digits every float rounds to
    itself, and otherwise the value is rounded correctly to [ndigits]
    decimals (ties to the even digit) and converted back. *)
Definition py_round (x : float) (ndigits : N) : float :=
  if (323 <? ndigits)%N then x
  else
    match Prim2SF x with
    | S754_finite s m e => nearest_double s (scaled_round m e ndigits) ndigits
    | _ => x
    end.

(** Conversion of a Python int to float, as done when a float is divided
    by an int: the nearest binary64 value. *)
Definition py_float_of_int (z : Z) : float :=
  SF2Prim (binary_normalize prec emax z 0 false).

(** [sum] over a list of floats.  The result starts at the int [0]; adding
    the first float turns it into the float [0.0 + x].  Up to CPython 3.11
    the remaining items are added left to right; since 3.12 they are added
    with Neumaier's compensated summation, the compensation being added at
    the end when it is finite and not zero. *)
Inductive sum_impl := LeftToRight | Compensated.

Definition neumaier_step (acc : float * float) (x : float) : float * float :=
  let '(f_result, c) := acc in
  let t := (f_result + x)%float in
  let c' :=
    if (abs x <=? abs f_result)%float
    then (c + ((f_result - t) + x))%float
    else (c + ((x - t) + f_result))%float in
  (t, c').

Definition neumaier_finish (acc : float * float) : float :=
  let '(f_result, c) := acc in
  if negb (c =? 0)%float && is_finite c then (f_result + c)%float else f_result.

Definition py_sum (impl : sum_impl) (l : list float) : float :=
  match l with
  | [] => 0%float
  | x :: rest =>
      let first := (0 + x)%float in
      match impl with
      | LeftToRight => fold_left PrimFloat.add rest first
      | Compensated => neumaier_finish (fold_left neumaier_step rest (first, 0%float))
      end
  end.

(** ** Python runtime: [sorted] on strings *)

(** [sorted(keys)]: the keys in lexicographic order. *)
Definition py_sorted (keys : list string) : list string :=
  merge_sort String.le keys.

(** ** Results and exceptions *)

Inductive exn :=
| HTTPException (status_code : Z) (detail : string)
| RequestError
| HTTPStatusError (status_code : Z)
| JSONDecodeError
| FileNotFoundError.

Inductive result (A : Type) :=
| Return (a : A)
| Raise (e : exn).
Arguments Return {A} a.
Arguments Raise {A} e.

(** ** Data model *)

(** One date entry of the provider's answer: currency code to quote. *)
Abbreviation quotes := (gmap string float).

(** The parsed JSON document handed to the summarizer: the [rates] object
    keyed by date, when present, and the [_source] tag, when set. *)
Record rates_data := {
  rd_rates : option (gmap string quotes);
  rd_source : option string
}.

Record DayRate := {
  date : string;
  rate : float;
  pct_change : option float
}.

Record Totals := {
  start_rate : float;
  end_rate : float;
  total_pct_change : float;
  mean_rate : float
}.

Record SummaryResponse := {
  breakdown : option (list DayRate);
  totals : Totals;
  source : string
}.

(** ** Summarizer *)

Definition safe_pct_change (current previous : float) : float :=
  if (previous =? 0)%float then 0%float
  else py_round (((current - previous) / previous) * 100)%float 4.

(** [rates[d].get("USD", 0.0)]; [d] ranges over the keys of [rates], so the
    subscript cannot fail. *)
Definition usd_rate (rates : gmap string quotes) (d : string) : float :=
  default 0%float ((rates !!! d) !! "USD"%string).

(** The three variables the loop of [calculate_summary] updates. *)
Record loop_state := {
  day_rates : list DayRate;
  all_rates : list float;
  previous_rate : option float
}.

Definition loop_init : loop_state :=
  {| day_rates := []; all_rates := []; previous_rate := None |}.

Definition loop_body (rates : gmap string quotes) (st : loop_state) (d : string)
  : loop_state :=
  let rate := usd_rate rates d in
  let pct_change :=
    match previous_rate st with
    | Some previous => Some (safe_pct_change rate previous)
    | None => None
    end in
  {| day_rates := day_rates st ++ [{| date := d; rate := rate; pct_change := pct_change |}];
     all_rates := all_rates st ++ [rate];
     previous_rate := Some rate |}.

Definition sorted_dates (rates : gmap string quotes) : list string :=
  py_sorted (fst <$> map_to_list rates).

Section Summarizer.
(** The summation algorithm of the interpreter running the service. *)
Variable impl : sum_impl.

Definition compute_totals (all_rates : list float) : Totals :=
  let start_rate := match all_rates with r :: _ => r | [] => 0%float end in
  let end_rate := match all_rates with _ :: _ => List.last all_rates 0%float | [] => 0%float end in
  let mean_rate :=
    match all_rates with
    | _ :: _ =>
        py_round (py_sum impl all_rates / py_float_of_int (Z.of_nat (length all_rates)))%float 4
    | [] => 0%float
    end in
  {| start_rate := start_rate;
     end_rate := end_rate;
     total_pct_change := safe_pct_change end_rate start_rate;
     mean_rate := mean_rate |}.

Definition calculate_summary (data : rates_data) (breakdown_type : string)
  : result SummaryResponse :=
  let rates := default ∅ (rd_rates data) in
  if bool_decide (rates = ∅) then
    Raise (HTTPException 404 "No rate data available")
  else
    let st := fold_left (loop_body rates) (sorted_dates rates) loop_init in
    Return {| breakdown :=
                if String.eqb breakdown_type "day" then Some (day_rates st) else None;
              totals := compute_totals (all_rates st);
              source := default "api"%string (rd_source data) |}.
End Summarizer.

(** ** Fetcher and endpoint *)

(** Configuration. *)
Definition FRANKFURTER_BASE : string := "https://api.frankfurter.app".
Definition MAX_RETRIES : nat := 3.

(** [datetime.date]: compared as the triple (year, month, day). *)
Record datetime_date := { year : N; month : N; day : N }.

Definition date_gtb (a b : datetime_date) : bool :=
  match (year a ?= year b)%N with
  | Gt => true
  | Lt => false
  | Eq =>
      match (month a ?= month b)%N with
      | Gt => true
      | Lt => false
      | Eq => match (day a ?= day b)%N with Gt => true | _ => false end
      end
  end.

Definition digit (n : N) : Ascii.ascii := Ascii.ascii_of_N (48 + n mod 10).

(** [%02d] and [%04d] on the numbers a date holds. *)
Definition pad2 (n : N) : string :=
  String (digit (n / 10)) (String (digit n) "").
Definition pad4 (n : N) : string :=
  String (digit (n / 1000)) (String (digit (n / 100)) (pad2 n)).

(** [str(d)] for a date: [%04d-%02d-%02d]. *)
Definition isoformat (d : datetime_date) : string :=
  (pad4 (year d) +:+ "-" +:+ pad2 (month d) +:+ "-" +:+ pad2 (day d))%string.

(** The breakdown parameter of the endpoint, [Literal["day", "none"]]. *)
Inductive breakdown_literal := BreakdownDay | BreakdownNone.

Definition breakdown_str (b : breakdown_literal) : string :=
  match b with BreakdownDay => "day" | BreakdownNone => "none" end.

(** What one [client.get] meets: a network-level failure, or a response with
    a status code and a body ([None] when the body is not JSON). *)
Inductive http_outcome :=
| NetworkFailure
| HttpResponse (status : Z) (body : option rates_data).

(** The snapshot file [data/sample_fx.json] as the service finds it. *)
Inductive snapshot_file :=
| FileMissing
| FileMalformed
| FileContent (data : rates_data).

(** The surroundings of one request: the outcome of the [n]-th request sent
    to a URL, and the snapshot file. *)
Record env := {
  remote : string -> nat -> http_outcome;
  fallback_file : snapshot_file
}.

Inductive event :=
| EvGet (url : string) (timeout : float)
| EvSleep (seconds : nat)
| EvOpenFallback.

(** The observable state: how many requests were sent, and everything done
    so far, oldest first. *)
Record world := {
  requests : nat;
  trace : list event
}.

Definition IO (A : Type) : Type := env -> world -> result A * world.

Definition ret {A} (a : A) : IO A := fun _ w => (Return a, w).
Definition raise {A} (e : exn) : IO A := fun _ w => (Raise e, w).
Definition bind {A B} (m : IO A) (k : A -> IO B) : IO B :=
  fun E w =>
    match m E w with
    | (Return a, w') => k a E w'
    | (Raise e, w') => (Raise e, w')
    end.
Definition lift {A} (r : result A) : IO A := fun _ w => (r, w).

Notation "x <- m ;; k" := (bind m (fun x => k))
  (at level 100, m at next level, right associativity).
Notation "m ;;; k" := (bind m (fun _ => k))
  (at level 100, right associativity).

(** [try: ... except (httpx.RequestError, httpx.HTTPStatusError)]: the
    handler runs for these two exceptions, any other one propagates. *)
Definition try_except {A} (m : IO A) (handler : IO A) : IO A :=
  fun E w =>
    match m E w with
    | (Raise RequestError, w') => handler E w'
    | (Raise (HTTPStatusError _), w') => handler E w'
    | rw => rw
    end.

Definition emit (e : event) : IO unit :=
  fun _ w => (Return tt, {| requests := requests w; trace := trace w ++ [e] |}).

(** [await client.get(url, timeout=...)]. *)
Definition client_get (url : string) (timeout : float)
  : IO (Z * option rates_data) :=
  fun E w =>
    let w' := {| requests := S (requests w);
                 trace := trace w ++ [EvGet url timeout] |} in
    match remote E url (requests w) with
    | NetworkFailure => (Raise RequestError, w')
    | HttpResponse status body => (Return (status, body), w')
    end.

(** [response.raise_for_status()] of httpx: raises unless the status is a
    success, 200 to 299. *)
Definition is_success (status : Z) : bool := (200 <=? status) && (status <=? 299).

Definition raise_for_status (response : Z * option rates_data) : IO unit :=
  if is_success (fst response) then ret tt else raise (HTTPStatusError (fst response)).

(** [response.json()]. *)
Definition response_json (response : Z * option rates_data) : IO rates_data :=
  match snd response with
  | Some data => ret data
  | None => raise JSONDecodeError
  end.

(** [await asyncio.sleep(seconds)]. *)
Definition asyncio_sleep (seconds : nat) : IO unit := emit (EvSleep seconds).

(** The body of [for attempt in range(MAX_RETRIES)], over the attempts that
    remain; running off the end of the loop returns [None]. *)
Fixpoint fetch_attempts (url : string) (attempts : list nat)
  : IO (option rates_data) :=
  match attempts with
  | [] => ret None
  | attempt :: rest =>
      try_except
        (response <- client_get url 10%float ;;
         raise_for_status response ;;;
         data <- response_json response ;;
         ret (Some data))
        (if (attempt <? MAX_RETRIES - 1)%nat then
           let wait_time := (2 ^ attempt)%nat in
           asyncio_sleep wait_time ;;;
           fetch_attempts url rest
         else ret None)
  end.

Definition fetch_with_retry (url : string) : IO (option rates_data) :=
  fetch_attempts url (seq 0 MAX_RETRIES).

Definition load_fallback : IO rates_data :=
  fun E w =>
    let w' := {| requests := requests w; trace := trace w ++ [EvOpenFallback] |} in
    match fallback_file E with
    | FileMissing => (Raise FileNotFoundError, w')
    | FileMalformed => (Raise JSONDecodeError, w')
    | FileContent data => (Return data, w')
    end.

(** [data["_source"] = tag]. *)
Definition set_source (data : rates_data) (tag : string) : rates_data :=
  {| rd_rates := rd_rates data; rd_source := Some tag |}.

Section Endpoint.
Variable impl : sum_impl.

Definition get_summary (start end_ : datetime_date) (breakdown : breakdown_literal)
  : IO SummaryResponse :=
  if date_gtb start end_ then
    raise (HTTPException 400 "Start date must be before end date")
  else
    let url := (FRANKFURTER_BASE +:+ "/" +:+ isoformat start +:+ ".."
                +:+ isoformat end_ +:+ "?from=EUR&to=USD")%string in
    data <- fetch_with_retry url ;;
    data <- match data with
            | None => d <- load_fallback ;; ret (set_source d "fallback")
            | Some d => ret (set_source d "api")
            end ;;
    lift (calculate_summary impl data (breakdown_str breakdown)).
End Endpoint.

Definition initial_world : world := {| requests := 0; trace := [] |}.

(** ** Reference renderings used by the statements *)

(** The breakdown the loop builds for the dates [ds] when the previous
    rate on entry is [prev]. *)
Fixpoint days_from (rates : gmap string quotes) (prev : option float)
  (ds : list string) : list DayRate :=
  match ds with
  | [] => []
  | d :: ds' =>
      {| date := d;
         rate := usd_rate rates d;
         pct_change := safe_pct_change (usd_rate rates d) <$> prev |}
      :: days_from rates (Some (usd_rate rates d)) ds'
  end.

(** The rates of a series in the order of its sorted dates. *)
Definition rates_in_order (rates : gmap string quotes) : list float :=
  usd_rate rates <$> sorted_dates rates.

(** [q.get("USD", 0.0)] on one date entry. *)
Definition quote_usd (q : quotes) : float := default 0%float (q !! "USD"%string).

(** A date entry with the absent USD quote written out as [0.0]. *)
Definition fill_missing (q : quotes) : quotes :=
  match q !! "USD"%string with
  | Some _ => q
  | None => <["USD"%string := 0%float]> q
  end.

(** An attempt fails when the request fails at the network level or the
    response does not carry a success status. *)
Definition attempt_fails (o : http_outcome) : bool :=
  match o with
  | NetworkFailure => true
  | HttpResponse status _ => negb (is_success status)
  end.

(** The event that follows the [n]-th request (counted from 0) in a trace. *)
Fixpoint event_after_get (n : nat) (tr : list event) : option event :=
  match tr with
  | [] => None
  | EvGet _ _ :: tr' =>
      match n with
      | O => head tr'
      | S n' => event_after_get n' tr'
      end
  | _ :: tr' => event_after_get n tr'
  end.

Definition is_get (e : event) : bool :=
  match e with EvGet _ _ => true | _ => false end.

Definition is_sleep (e : event) : bool :=
  match e with EvSleep _ => true | _ => false end.

Definition count_gets (tr : list event) : nat :=
  length (List.filter is_get tr).

(** The series of the worked example: 1.0 on 2025-01-01, 1.1 on 2025-01-02. *)
Definition example_rates : gmap string quotes :=
  <["2025-01-02"%string := {["USD"%string := 1.1%float]}]>
    (<["2025-01-01"%string := {["USD"%string := 1.0%float]}]> ∅).

Definition example_data : rates_data :=
  {| rd_rates := Some example_rates; rd_source := None |}.

(** A series with a date that carries no USD quote and one that carries a
    zero quote. *)
Definition gappy_rates : gmap string quotes :=
  <["2025-01-03"%string := {["USD"%string := 1.2%float]}]>
    (<["2025-01-02"%string := {["GBP"%string := 0.8%float]}]>
      (<["2025-01-01"%string := {["USD"%string := 0%float]}]> ∅)).

Definition gappy_data : rates_data :=
  {| rd_rates := Some gappy_rates; rd_source := None |}.

(** A provider that is down, next to a readable snapshot. *)
Definition env_down : env :=
  {| remote := λ _ _, NetworkFailure; fallback_file := FileContent example_data |}.

(** A provider that answers 503 to everything. *)
Definition env_503 : env :=
  {| remote := λ _ _, HttpResponse 503 None; fallback_file := FileContent example_data |}.

Definition jan (d : N) : datetime_date := {| year := 2025; month := 1; day := d |}.

(** What one attempt yields, before the [except] clause sees it. *)
Definition attempt_result (o : http_outcome) : result (option rates_data) :=
  match o with
  | NetworkFailure => Raise RequestError
  | HttpResponse status body =>
      if is_success status then
        match body with
        | Some data => Return (Some data)
        | None => Raise JSONDecodeError
        end
      else Raise (HTTPStatusError status)
  end.

(** The requests and sleeps of one call of the fetcher, given whether its
    first and its second attempt fail. *)
Definition fetch_events (url : string) (fails0 fails1 : bool) : list event :=
  if fails0 then
    if fails1 then
      [EvGet url 10%float; EvSleep 1; EvGet url 10%float; EvSleep 2; EvGet url 10%float]
    else [EvGet url 10%float; EvSleep 1; EvGet url 10%float]
  else [EvGet url 10%float].

(** The URL the endpoint asks for. *)
Definition summary_url (start end_ : datetime_date) : string :=
  (FRANKFURTER_BASE +:+ "/" +:+ isoformat start +:+ ".."
   +:+ isoformat end_ +:+ "?from=EUR&to=USD")%string.

(** ** Health check *)

Record HealthResponse := {
  status : string;
  api_reachable : bool
}.

(** [try: ... except httpx.RequestError]: the handler runs for this
    exception only. *)
Definition try_except_RequestError {A} (m : IO A) (handler : IO A) : IO A :=
  fun E w =>
    match m E w with
    | (Raise RequestError, w') => handler E w'
    | rw => rw
    end.

Definition health_url : string :=
  (FRANKFURTER_BASE +:+ "/latest?from=EUR&to=USD")%string.

Definition health_check : IO HealthResponse :=
  api_reachable <-
    try_except_RequestError
      (response <- client_get health_url 5%float ;;
       ret (fst response =? 200))
      (ret false) ;;
  ret {| status := "ok"; api_reachable := api_reachable |}.

(** ** Further renderings used by the statements *)

(** The events of a call of the fetcher whose first [k] attempts fail and
    whose next attempt ends the loop. *)
Definition retry_events (url : string) (k : nat) : list event :=
  flat_map (λ attempt, [EvGet url 10%float; EvSleep (2 ^ attempt)]) (seq 0 k)
  ++ [EvGet url 10%float].

(** The seconds slept in a trace. *)
Definition total_sleep (tr : list event) : nat :=
  foldr (λ e acc, match e with EvSleep s => (s + acc)%nat | _ => acc end) 0%nat tr.

Definition opens_fallback (e : event) : bool :=
  match e with EvOpenFallback => true | _ => false end.

(** Whether the three attempts of a call that starts in world [w] all fail. *)
Definition all_attempts_fail (E : env) (url : string) (w : world) : bool :=
  attempt_fails (remote E url (requests w))
  && attempt_fails (remote E url (S (requests w)))
  && attempt_fails (remote E url (S (S (requests w)))).

(** A date as [datetime.date] admits it on input: four-digit year,
    two-digit month and day. *)
Definition date_in_range (d : datetime_date) : Prop :=
  (year d < 10000 ∧ month d < 100 ∧ day d < 100)%N.

(** A provider whose first answer is lost and whose later answers carry
    the example series, next to a missing snapshot. *)
Definition env_second_try : env :=
  {| remote := λ _ n, match n with
                      | O => NetworkFailure
                      | _ => HttpResponse 200 (Some example_data)
                      end;
     fallback_file := FileMissing |}.

(** A provider that answers 200 with a body that is not JSON. *)
Definition env_not_json : env :=
  {| remote := λ _ _, HttpResponse 200 None;
     fallback_file := FileContent example_data |}.


(** A provider that is down, and no snapshot. *)
Definition env_nothing : env :=
  {| remote := λ _ _, NetworkFailure; fallback_file := FileMissing |}.

(** * Properties *)

(** ** The zero guard of [safe_pct_change] *)

(** The test [previous == 0] succeeds exactly on the two IEEE zeros. *)
Lemma eqb_zero_classify (x : float) :
  (x =? 0)%float = match Prim2SF x with S754_zero _ => true | _ => false end.
Proof.
  rewrite FloatAxioms.eqb_spec.
  change (Prim2SF 0%float) with (S754_zero false).
  destruct (Prim2SF x) as [s|s| |s m e]; try destruct s; reflexivity.
Qed.

Lemma safe_pct_change_zero (current previous : float) :
  (previous =? 0)%float = true → safe_pct_change current previous = 0%float.
Proof. unfold safe_pct_change. intros ->. reflexivity. Qed.

Lemma safe_pct_change_nonzero (current previous : float) :
  (previous =? 0)%float = false →
  safe_pct_change current previous
  = py_round (((current - previous) / previous) * 100)%float 4.
Proof. unfold safe_pct_change. intros ->. reflexivity. Qed.

(** C1: for every current and previous rate, when the previous rate is an
    IEEE zero (+0.0 or -0.0) the percent change is the float 0.0, a finite
    number that is neither an infinity nor NaN; for every other previous rate
    it is ((current - previous) / previous) * 100 rounded to 4 decimals.  The
    function is total: it has a value on every pair and raises on none. *)
Theorem safe_pct_change_spec (current previous : float) :
  ((∃ s, Prim2SF previous = S754_zero s) →
     safe_pct_change current previous = 0%float
     ∧ is_nan (safe_pct_change current previous) = false
     ∧ is_infinity (safe_pct_change current previous) = false)
  ∧ ((∀ s, Prim2SF previous ≠ S754_zero s) →
     safe_pct_change current previous
     = py_round (((current - previous) / previous) * 100)%float 4).
Proof.
  split.
  - intros [s Hs].
    assert (Hz : safe_pct_change current previous = 0%float).
    { apply safe_pct_change_zero. rewrite eqb_zero_classify, Hs. reflexivity. }
    rewrite Hz. repeat split; reflexivity.
  - intros Hnz. apply safe_pct_change_nonzero.
    rewrite eqb_zero_classify.
    destruct (Prim2SF previous) as [s|s| |s m e] eqn:E; try reflexivity.
    exfalso. exact (Hnz s eq_refl).
Qed.

Lemma safe_pct_change_spec_witness :
  safe_pct_change 1.1%float 0%float = 0%float
  ∧ safe_pct_change 1.1%float (-0)%float = 0%float
  ∧ safe_pct_change 1.1%float 1%float = 10%float.
Proof.
  split; [|split].
  - apply (safe_pct_change_spec 1.1%float 0%float). exists false. reflexivity.
  - apply (safe_pct_change_spec 1.1%float (-0)%float). exists true. reflexivity.
  - destruct (safe_pct_change_spec 1.1%float 1%float) as [_ H].
    rewrite H; [reflexivity|]. intros s. vm_compute. discriminate.
Defined.

(** ** The loop of [calculate_summary] *)

Lemma fold_loop_body rates ds st :
  fold_left (loop_body rates) ds st
  = {| day_rates := day_rates st ++ days_from rates (previous_rate st) ds;
       all_rates := all_rates st ++ (usd_rate rates <$> ds);
       previous_rate := match ds with
                        | [] => previous_rate st
                        | _ :: _ => Some (List.last (usd_rate rates <$> ds) 0%float)
                        end |}.
Proof.
  revert st. induction ds as [|d ds IH]; intros st.
  - destruct st; simpl. rewrite !app_nil_r. reflexivity.
  - simpl fold_left. rewrite IH. simpl.
    rewrite <- !app_assoc. simpl.
    f_equal; solve [ destruct (previous_rate st); reflexivity
                   | destruct ds; reflexivity ].
Qed.

Lemma days_from_length rates prev ds :
  length (days_from rates prev ds) = length ds.
Proof. revert prev. induction ds; intros; simpl; auto. Qed.

Lemma days_from_dates rates prev ds : date <$> days_from rates prev ds = ds.
Proof. revert prev. induction ds; intros; simpl; f_equal; auto. Qed.

Lemma days_from_rates rates prev ds :
  rate <$> days_from rates prev ds = usd_rate rates <$> ds.
Proof. revert prev. induction ds; intros; simpl; f_equal; auto. Qed.

Lemma days_from_rate_of_date rates prev ds i e :
  days_from rates prev ds !! i = Some e → rate e = usd_rate rates (date e).
Proof.
  revert prev i. induction ds as [|d ds IH]; intros prev i; simpl.
  - rewrite lookup_nil. discriminate.
  - destruct i as [|i]; simpl.
    + intros [= <-]. reflexivity.
    + apply IH.
Qed.

Lemma days_from_head rates prev ds e :
  days_from rates prev ds !! 0%nat = Some e →
  pct_change e = safe_pct_change (rate e) <$> prev.
Proof. destruct ds; simpl; [discriminate|]. intros [= <-]. reflexivity. Qed.

Lemma days_from_consecutive rates prev ds i p e :
  days_from rates prev ds !! i = Some p →
  days_from rates prev ds !! S i = Some e →
  pct_change e = Some (safe_pct_change (rate e) (rate p)).
Proof.
  revert prev i. induction ds as [|d ds IH]; intros prev i; simpl.
  - rewrite lookup_nil. discriminate.
  - destruct i as [|i]; simpl.
    + intros [= <-] He. apply days_from_head in He. exact He.
    + apply IH.
Qed.

(** ** Sorted dates *)

Lemma sorted_dates_perm (rates : gmap string quotes) :
  sorted_dates rates ≡ₚ (map_to_list rates).*1.
Proof. apply merge_sort_Permutation. Qed.

Lemma sorted_dates_length (rates : gmap string quotes) :
  length (sorted_dates rates) = size rates.
Proof.
  rewrite (Permutation_length (sorted_dates_perm rates)).
  rewrite length_fmap. apply length_map_to_list.
Qed.

Lemma sorted_dates_elem (rates : gmap string quotes) (d : string) :
  d ∈ sorted_dates rates ↔ is_Some (rates !! d).
Proof.
  rewrite (sorted_dates_perm rates), list_elem_of_fmap. split.
  - intros [[k q] [-> Hin]]. apply elem_of_map_to_list in Hin. eauto.
  - intros [q Hq]. exists (d, q). split; [reflexivity|].
    apply elem_of_map_to_list. exact Hq.
Qed.

Lemma sorted_dates_NoDup (rates : gmap string quotes) :
  NoDup (sorted_dates rates).
Proof.
  rewrite (sorted_dates_perm rates). apply NoDup_fst_map_to_list.
Qed.

Lemma sorted_dates_sorted (rates : gmap string quotes) :
  StronglySorted String.le (sorted_dates rates).
Proof. apply StronglySorted_merge_sort; apply _. Qed.

Lemma StronglySorted_strict {A} (R : relation A) `{!AntiSymm (=) R} (l : list A) :
  StronglySorted R l → NoDup l → StronglySorted (strict R) l.
Proof.
  induction 1 as [|x l Hl IH Hx]; intros Hnd; constructor.
  - apply IH. eapply NoDup_cons_1_2. exact Hnd.
  - apply NoDup_cons in Hnd as [Hx' _].
    rewrite Forall_forall in Hx. apply Forall_forall. intros y Hy.
    split; [apply Hx, Hy|].
    intros Hyx. apply Hx'.
    assert (x = y) as -> by (apply (anti_symm R); [apply Hx, Hy|exact Hyx]).
    exact Hy.
Qed.

(** The dates come out strictly increasing in the lexicographic order. *)
Lemma sorted_dates_increasing (rates : gmap string quotes) :
  StronglySorted (strict String.le) (sorted_dates rates).
Proof.
  apply StronglySorted_strict; [apply _| |].
  - apply sorted_dates_sorted.
  - apply sorted_dates_NoDup.
Qed.

Lemma sorted_dates_nonempty (rates : gmap string quotes) :
  rates ≠ ∅ → sorted_dates rates ≠ [].
Proof.
  intros Hne Hnil. apply Hne, map_size_empty_iff.
  rewrite <- sorted_dates_length, Hnil. reflexivity.
Qed.

Lemma list_last_default {A} (l : list A) (d : A) :
  List.last l d = default d (last l).
Proof.
  induction l as [|x [|y l] IH]; try reflexivity.
  rewrite last_cons_cons. rewrite <- IH. reflexivity.
Qed.

(** ** The result of the summarizer on a non-empty series *)

Lemma calculate_summary_empty impl data bt :
  default ∅ (rd_rates data) = ∅ →
  calculate_summary impl data bt = Raise (HTTPException 404 "No rate data available").
Proof.
  intros H. unfold calculate_summary. rewrite H.
  rewrite bool_decide_eq_true_2 by reflexivity. reflexivity.
Qed.

Lemma calculate_summary_nonempty impl data rates bt :
  rd_rates data = Some rates → rates ≠ ∅ →
  calculate_summary impl data bt
  = Return {| breakdown :=
                if String.eqb bt "day"
                then Some (days_from rates None (sorted_dates rates)) else None;
              totals := compute_totals impl (rates_in_order rates);
              source := default "api"%string (rd_source data) |}.
Proof.
  intros Hr Hne. unfold calculate_summary. rewrite Hr. simpl default.
  rewrite bool_decide_eq_false_2 by exact Hne.
  rewrite fold_loop_body. reflexivity.
Qed.

Lemma compute_totals_nonempty impl (rs : list float) :
  rs ≠ [] →
  compute_totals impl rs
  = {| start_rate := default 0%float (head rs);
       end_rate := default 0%float (last rs);
       total_pct_change :=
         safe_pct_change (default 0%float (last rs)) (default 0%float (head rs));
       mean_rate :=
         py_round (py_sum impl rs / py_float_of_int (Z.of_nat (length rs)))%float 4 |}.
Proof.
  destruct rs as [|r rs]; [congruence|]. intros _.
  unfold compute_totals. rewrite list_last_default. reflexivity.
Qed.

Lemma rates_in_order_nonempty (rates : gmap string quotes) :
  rates ≠ ∅ → rates_in_order rates ≠ [].
Proof.
  intros Hne Hnil. apply (sorted_dates_nonempty rates Hne).
  unfold rates_in_order in Hnil. apply fmap_nil_inv in Hnil. exact Hnil.
Qed.

(** ** The NoData error *)

(** C4: for every input document and every breakdown mode, the summarizer
    raises the 404 "No rate data available" error exactly when the resolved
    series is empty; it raises nothing else; and a document without a
    [rates] mapping counts as empty. *)
Theorem no_data_iff_empty impl data bt :
  (calculate_summary impl data bt = Raise (HTTPException 404 "No rate data available")
   ↔ default ∅ (rd_rates data) = ∅)
  ∧ (∀ e, calculate_summary impl data bt = Raise e →
          e = HTTPException 404 "No rate data available")
  ∧ (rd_rates data = None →
     calculate_summary impl data bt = Raise (HTTPException 404 "No rate data available")).
Proof.
  assert (Hcases : default ∅ (rd_rates data) = ∅
                   ∨ ∃ rates, rd_rates data = Some rates ∧ rates ≠ ∅).
  { destruct (rd_rates data) as [rates|] eqn:E; [|left; reflexivity].
    destruct (decide (rates = ∅)) as [->|Hne]; [left; reflexivity|].
    right. eauto. }
  split; [|split].
  - split; [|apply calculate_summary_empty].
    destruct Hcases as [He|(rates & Hr & Hne)]; [intros _; exact He|].
    rewrite (calculate_summary_nonempty impl data rates bt Hr Hne). discriminate.
  - intros e. destruct Hcases as [He|(rates & Hr & Hne)].
    + rewrite (calculate_summary_empty impl data bt He). congruence.
    + rewrite (calculate_summary_nonempty impl data rates bt Hr Hne). discriminate.
  - intros Hnone. apply calculate_summary_empty. rewrite Hnone. reflexivity.
Qed.

Lemma no_data_iff_empty_witness :
  calculate_summary Compensated {| rd_rates := None; rd_source := Some "api"%string |} "none"
  = Raise (HTTPException 404 "No rate data available").
Proof.
  apply (no_data_iff_empty Compensated
           {| rd_rates := None; rd_source := Some "api"%string |} "none").
  reflexivity.
Defined.

(** ** The per-day breakdown *)

(** C2: for every non-empty series summarized in mode "day", the breakdown
    lists the sorted dates, each with its own rate; the entry of the first
    sorted date has no percent change, and every later entry carries the
    zero-guarded percent change of its rate against the rate of the entry
    just before it. *)
Theorem breakdown_day_pct_changes impl data rates :
  rd_rates data = Some rates → rates ≠ ∅ →
  ∃ r days first,
    calculate_summary impl data "day" = Return r
    ∧ breakdown r = Some days
    ∧ date <$> days = sorted_dates rates
    ∧ (∀ i e, days !! i = Some e → rate e = usd_rate rates (date e))
    ∧ days !! 0%nat = Some first
    ∧ pct_change first = None
    ∧ (∀ i p e, days !! i = Some p → days !! S i = Some e →
         pct_change e = Some (safe_pct_change (rate e) (rate p))).
Proof.
  intros Hr Hne.
  pose proof (sorted_dates_nonempty rates Hne) as Hds.
  destruct (days_from rates None (sorted_dates rates)) as [|first rest] eqn:Hdays.
  { exfalso. apply Hds. apply (f_equal length) in Hdays.
    rewrite days_from_length in Hdays. destruct (sorted_dates rates); [reflexivity|discriminate]. }
  eexists _, (first :: rest), first.
  split; [apply (calculate_summary_nonempty impl data rates "day" Hr Hne)|].
  cbn [breakdown String.eqb]. rewrite <- Hdays.
  split; [reflexivity|]. split; [apply days_from_dates|].
  split; [apply days_from_rate_of_date|].
  split; [rewrite Hdays; reflexivity|].
  split.
  - assert (H0 : days_from rates None (sorted_dates rates) !! 0%nat = Some first)
      by (rewrite Hdays; reflexivity).
    apply days_from_head in H0. exact H0.
  - apply days_from_consecutive.
Qed.

Lemma example_rates_nonempty : example_rates ≠ ∅.
Proof. apply insert_non_empty. Qed.

Lemma gappy_rates_nonempty : gappy_rates ≠ ∅.
Proof. apply insert_non_empty. Qed.

Lemma breakdown_day_pct_changes_witness :
  ∃ r days first,
    calculate_summary LeftToRight gappy_data "day" = Return r
    ∧ breakdown r = Some days
    ∧ date <$> days = sorted_dates gappy_rates
    ∧ (∀ i e, days !! i = Some e → rate e = usd_rate gappy_rates (date e))
    ∧ days !! 0%nat = Some first
    ∧ pct_change first = None
    ∧ (∀ i p e, days !! i = Some p → days !! S i = Some e →
         pct_change e = Some (safe_pct_change (rate e) (rate p))).
Proof.
  apply (breakdown_day_pct_changes LeftToRight gappy_data gappy_rates).
  - reflexivity.
  - apply insert_non_empty.
Defined.

(** C6: for every non-empty series, mode "day" yields a breakdown with
    exactly one entry per date of the series (as many entries as dates, no
    date twice, a date listed exactly when the series has it) in strictly
    increasing sorted order, and mode "none" yields no breakdown. *)
Theorem breakdown_one_entry_per_date impl data rates :
  rd_rates data = Some rates → rates ≠ ∅ →
  (∃ r days,
     calculate_summary impl data "day" = Return r
     ∧ breakdown r = Some days
     ∧ length days = size rates
     ∧ NoDup (date <$> days)
     ∧ (∀ d, d ∈ date <$> days ↔ is_Some (rates !! d))
     ∧ StronglySorted (strict String.le) (date <$> days))
  ∧ (∃ r, calculate_summary impl data "none" = Return r ∧ breakdown r = None).
Proof.
  intros Hr Hne. split.
  - eexists _, _.
    split; [apply (calculate_summary_nonempty impl data rates "day" Hr Hne)|].
    cbn [breakdown String.eqb]. split; [reflexivity|].
    rewrite days_from_length, days_from_dates.
    split; [apply sorted_dates_length|].
    split; [apply sorted_dates_NoDup|].
    split; [apply sorted_dates_elem|apply sorted_dates_increasing].
  - eexists.
    split; [apply (calculate_summary_nonempty impl data rates "none" Hr Hne)|].
    reflexivity.
Qed.

Lemma breakdown_one_entry_per_date_witness :
  (∃ r days,
     calculate_summary Compensated gappy_data "day" = Return r
     ∧ breakdown r = Some days
     ∧ length days = size gappy_rates
     ∧ NoDup (date <$> days)
     ∧ (∀ d, d ∈ date <$> days ↔ is_Some (gappy_rates !! d))
     ∧ StronglySorted (strict String.le) (date <$> days))
  ∧ (∃ r, calculate_summary Compensated gappy_data "none" = Return r
          ∧ breakdown r = None).
Proof.
  apply (breakdown_one_entry_per_date Compensated gappy_data gappy_rates).
  - reflexivity.
  - apply insert_non_empty.
Defined.

(** ** Totals *)

Lemma rates_in_order_head (rates : gmap string quotes) :
  head (rates_in_order rates) = usd_rate rates <$> head (sorted_dates rates).
Proof. unfold rates_in_order. destruct (sorted_dates rates); reflexivity. Qed.

Lemma rates_in_order_last (rates : gmap string quotes) :
  last (rates_in_order rates) = usd_rate rates <$> last (sorted_dates rates).
Proof. unfold rates_in_order. apply fmap_last. Qed.

(** C7: for every non-empty series and every breakdown mode, the total
    percent change is the zero-guarded percent change of the rate of the last
    sorted date against the rate of the first sorted date (which are the end
    and start rates of the totals), and the totals are the same in every
    mode. *)
Theorem total_pct_change_end_vs_start impl data rates bt :
  rd_rates data = Some rates → rates ≠ ∅ →
  ∃ r first_date last_date,
    calculate_summary impl data bt = Return r
    ∧ head (sorted_dates rates) = Some first_date
    ∧ last (sorted_dates rates) = Some last_date
    ∧ start_rate (totals r) = usd_rate rates first_date
    ∧ end_rate (totals r) = usd_rate rates last_date
    ∧ total_pct_change (totals r)
      = safe_pct_change (usd_rate rates last_date) (usd_rate rates first_date)
    ∧ (∀ bt' r', calculate_summary impl data bt' = Return r' →
                 totals r' = totals r).
Proof.
  intros Hr Hne.
  pose proof (sorted_dates_nonempty rates Hne) as Hds.
  destruct (head (sorted_dates rates)) as [first_date|] eqn:Hhead;
    [|destruct (sorted_dates rates); [congruence|discriminate]].
  destruct (last (sorted_dates rates)) as [last_date|] eqn:Hlast;
    [|apply last_None in Hlast; congruence].
  eexists _, first_date, last_date.
  split; [apply (calculate_summary_nonempty impl data rates bt Hr Hne)|].
  cbn [totals].
  rewrite (compute_totals_nonempty impl _ (rates_in_order_nonempty rates Hne)).
  rewrite rates_in_order_head, rates_in_order_last, Hhead, Hlast.
  cbn [start_rate end_rate total_pct_change fmap option_fmap option_map default].
  repeat (split; [reflexivity|]).
  intros bt' r'.
  rewrite (calculate_summary_nonempty impl data rates bt' Hr Hne).
  intros [= <-]. cbn [totals].
  rewrite (compute_totals_nonempty impl _ (rates_in_order_nonempty rates Hne)).
  rewrite rates_in_order_head, rates_in_order_last, Hhead, Hlast. reflexivity.
Qed.

Lemma total_pct_change_end_vs_start_witness :
  ∃ r first_date last_date,
    calculate_summary LeftToRight example_data "none" = Return r
    ∧ head (sorted_dates example_rates) = Some first_date
    ∧ last (sorted_dates example_rates) = Some last_date
    ∧ start_rate (totals r) = usd_rate example_rates first_date
    ∧ end_rate (totals r) = usd_rate example_rates last_date
    ∧ total_pct_change (totals r)
      = safe_pct_change (usd_rate example_rates last_date)
          (usd_rate example_rates first_date)
    ∧ (∀ bt' r', calculate_summary LeftToRight example_data bt' = Return r' →
                 totals r' = totals r).
Proof.
  apply (total_pct_change_end_vs_start LeftToRight example_data example_rates "none").
  - reflexivity.
  - apply insert_non_empty.
Defined.

Lemma usd_rate_lookup (rates : gmap string quotes) d q :
  rates !! d = Some q → usd_rate rates d = quote_usd q.
Proof.
  intros H. unfold usd_rate, quote_usd.
  rewrite (lookup_total_correct rates d q H). reflexivity.
Qed.

(** The rates the loop collects are the rates of the entries of the series,
    each once. *)
Lemma rates_in_order_values (rates : gmap string quotes) :
  rates_in_order rates ≡ₚ quote_usd <$> (map_to_list rates).*2.
Proof.
  unfold rates_in_order. rewrite (sorted_dates_perm rates).
  rewrite <- !list_fmap_compose.
  apply eq_subrelation; [apply _|].
  apply Forall_fmap_ext, Forall_forall.
  intros [d q] Hin. apply elem_of_map_to_list in Hin. simpl.
  apply usd_rate_lookup, Hin.
Qed.

Lemma rates_in_order_length (rates : gmap string quotes) :
  length (rates_in_order rates) = size rates.
Proof. unfold rates_in_order. rewrite length_fmap. apply sorted_dates_length. Qed.

(** C8: for every non-empty series and every mode, the mean rate is the
    sum of all the rates of the series divided by their number, in binary64
    arithmetic, rounded to 4 decimals; on the series 1.0, 1.1 the mean is
    1.05 and the total percent change is 10.0. *)
Theorem mean_rate_is_rounded_mean impl :
  (∀ data rates bt,
     rd_rates data = Some rates → rates ≠ ∅ →
     ∃ r,
       calculate_summary impl data bt = Return r
       ∧ rates_in_order rates ≡ₚ quote_usd <$> (map_to_list rates).*2
       ∧ mean_rate (totals r)
         = py_round (py_sum impl (rates_in_order rates)
                     / py_float_of_int (Z.of_nat (size rates)))%float 4)
  ∧ (∀ bt, ∃ r,
       calculate_summary impl example_data bt = Return r
       ∧ mean_rate (totals r) = 1.05%float
       ∧ total_pct_change (totals r) = 10%float).
Proof.
  split.
  - intros data rates bt Hr Hne. eexists.
    split; [apply (calculate_summary_nonempty impl data rates bt Hr Hne)|].
    split; [apply rates_in_order_values|].
    cbn [totals].
    rewrite (compute_totals_nonempty impl _ (rates_in_order_nonempty rates Hne)).
    cbn [mean_rate]. rewrite rates_in_order_length. reflexivity.
  - intros bt. eexists.
    split; [apply (calculate_summary_nonempty impl example_data example_rates bt
                     eq_refl example_rates_nonempty)|].
    cbn [totals]. destruct impl; split; vm_compute; reflexivity.
Qed.

Lemma mean_rate_is_rounded_mean_witness :
  ∃ r,
    calculate_summary Compensated gappy_data "day" = Return r
    ∧ rates_in_order gappy_rates ≡ₚ quote_usd <$> (map_to_list gappy_rates).*2
    ∧ mean_rate (totals r)
      = py_round (py_sum Compensated (rates_in_order gappy_rates)
                  / py_float_of_int (Z.of_nat (size gappy_rates)))%float 4.
Proof.
  apply (mean_rate_is_rounded_mean Compensated).
  - reflexivity.
  - apply insert_non_empty.
Defined.

(** ** Dates without a USD quote *)

Lemma quote_usd_fill_missing (q : quotes) : quote_usd (fill_missing q) = quote_usd q.
Proof.
  unfold fill_missing, quote_usd.
  destruct (q !! "USD"%string) eqn:E; [rewrite E; reflexivity|].
  rewrite lookup_insert_eq. reflexivity.
Qed.

Lemma usd_rate_fill_missing (rates : gmap string quotes) d :
  usd_rate (fill_missing <$> rates) d = usd_rate rates d.
Proof.
  unfold usd_rate. rewrite !lookup_total_alt, lookup_fmap.
  destruct (rates !! d) as [q|]; [apply quote_usd_fill_missing|reflexivity].
Qed.

Lemma sorted_dates_fmap (f : quotes → quotes) (rates : gmap string quotes) :
  sorted_dates (f <$> rates) = sorted_dates rates.
Proof.
  unfold sorted_dates. rewrite map_to_list_fmap, <- list_fmap_compose.
  reflexivity.
Qed.

Lemma days_from_ext (rates rates' : gmap string quotes) prev ds :
  (∀ d, usd_rate rates' d = usd_rate rates d) →
  days_from rates' prev ds = days_from rates prev ds.
Proof.
  intros H. revert prev. induction ds as [|d ds IH]; intros prev; simpl.
  - reflexivity.
  - rewrite H, IH. reflexivity.
Qed.

Lemma rates_in_order_fill_missing (rates : gmap string quotes) :
  rates_in_order (fill_missing <$> rates) = rates_in_order rates.
Proof.
  unfold rates_in_order. rewrite sorted_dates_fmap.
  apply list_fmap_ext. intros i d _. apply usd_rate_fill_missing.
Qed.

Lemma days_from_lookup rates prev ds i d :
  ds !! i = Some d →
  ∃ e, days_from rates prev ds !! i = Some e
       ∧ date e = d ∧ rate e = usd_rate rates d.
Proof.
  intros Hd.
  assert (H : (date <$> days_from rates prev ds) !! i = Some d)
    by (rewrite days_from_dates; exact Hd).
  rewrite list_lookup_fmap in H.
  destruct (days_from rates prev ds !! i) as [e|] eqn:He; [|discriminate].
  injection H as <-. exists e. split; [reflexivity|]. split; [reflexivity|].
  eapply days_from_rate_of_date, He.
Qed.

(** C10: when the entry of a date of the series has no USD quote, or has
    the quote 0.0, the summarizer returns a result (it raises nothing) in
    which that date's rate is 0.0: the date keeps its place among the sorted
    dates, its breakdown entry carries the rate 0.0, the entry after it gets
    the zero-guarded percent change 0.0, the totals (start, end, mean, total
    percent change) are computed from the list of rates with that 0.0 in it,
    and the whole result is the one of the series with every absent quote
    written out as 0.0. *)
Theorem missing_usd_counts_as_zero impl data rates bt d q :
  rd_rates data = Some rates →
  rates !! d = Some q →
  q !! "USD"%string = None ∨ q !! "USD"%string = Some 0%float →
  ∃ r i,
    calculate_summary impl data bt = Return r
    ∧ usd_rate rates d = 0%float
    ∧ sorted_dates rates !! i = Some d
    ∧ rates_in_order rates !! i = Some 0%float
    ∧ totals r = compute_totals impl (rates_in_order rates)
    ∧ (∀ days, breakdown r = Some days →
         (∃ e, days !! i = Some e ∧ date e = d ∧ rate e = 0%float)
         ∧ (∀ e', days !! S i = Some e' → pct_change e' = Some 0%float))
    ∧ calculate_summary impl data bt
      = calculate_summary impl
          {| rd_rates := Some (fill_missing <$> rates); rd_source := rd_source data |} bt.
Proof.
  intros Hr Hq Husd.
  assert (Hne : rates ≠ ∅).
  { intros ->. rewrite lookup_empty in Hq. discriminate. }
  assert (Hzero : usd_rate rates d = 0%float).
  { rewrite (usd_rate_lookup rates d q Hq). unfold quote_usd.
    destruct Husd as [-> | ->]; reflexivity. }
  assert (Hin : d ∈ sorted_dates rates) by (apply sorted_dates_elem; eauto).
  apply list_elem_of_lookup in Hin as [i Hi].
  eexists _, i.
  split; [apply (calculate_summary_nonempty impl data rates bt Hr Hne)|].
  split; [exact Hzero|]. split; [exact Hi|].
  split.
  { unfold rates_in_order. rewrite list_lookup_fmap, Hi. simpl.
    rewrite Hzero. reflexivity. }
  split; [reflexivity|].
  split.
  - cbn [breakdown]. intros days Hdays.
    destruct (String.eqb bt "day"); [|discriminate].
    injection Hdays as <-.
    destruct (days_from_lookup rates None (sorted_dates rates) i d Hi)
      as (e & He & Hdate & Hrate).
    rewrite Hzero in Hrate. split; [eauto|].
    intros e' He'.
    rewrite (days_from_consecutive _ _ _ _ _ _ He He'), Hrate.
    rewrite safe_pct_change_zero by reflexivity. reflexivity.
  - rewrite (calculate_summary_nonempty impl data rates bt Hr Hne).
    rewrite (calculate_summary_nonempty impl
               {| rd_rates := Some (fill_missing <$> rates);
                  rd_source := rd_source data |}
               (fill_missing <$> rates) bt eq_refl)
      by (rewrite fmap_empty_iff; exact Hne).
    cbn [rd_source].
    rewrite rates_in_order_fill_missing, sorted_dates_fmap.
    rewrite (days_from_ext rates (fill_missing <$> rates))
      by apply usd_rate_fill_missing.
    reflexivity.
Qed.

Lemma missing_usd_counts_as_zero_witness :
  ∃ r i,
    calculate_summary LeftToRight gappy_data "day" = Return r
    ∧ usd_rate gappy_rates "2025-01-02" = 0%float
    ∧ sorted_dates gappy_rates !! i = Some "2025-01-02"%string
    ∧ rates_in_order gappy_rates !! i = Some 0%float
    ∧ totals r = compute_totals LeftToRight (rates_in_order gappy_rates)
    ∧ (∀ days, breakdown r = Some days →
         (∃ e, days !! i = Some e ∧ date e = "2025-01-02"%string ∧ rate e = 0%float)
         ∧ (∀ e', days !! S i = Some e' → pct_change e' = Some 0%float))
    ∧ calculate_summary LeftToRight gappy_data "day"
      = calculate_summary LeftToRight
          {| rd_rates := Some (fill_missing <$> gappy_rates);
             rd_source := rd_source gappy_data |} "day".
Proof.
  apply (missing_usd_counts_as_zero LeftToRight gappy_data gappy_rates "day"
           "2025-01-02" {["GBP"%string := 0.8%float]}).
  - reflexivity.
  - vm_compute. reflexivity.
  - left. vm_compute. reflexivity.
Defined.

(** ** The fetcher *)

Lemma attempt_fails_caught (o : http_outcome) :
  attempt_fails o = true →
  attempt_result o = Raise RequestError
  ∨ ∃ status, attempt_result o = Raise (HTTPStatusError status).
Proof.
  destruct o as [|status body]; simpl; [auto|].
  intros H. apply negb_true_iff in H. rewrite H. eauto.
Qed.

Lemma attempt_succeeds_not_caught (o : http_outcome) :
  attempt_fails o = false →
  attempt_result o ≠ Raise RequestError
  ∧ ∀ status, attempt_result o ≠ Raise (HTTPStatusError status).
Proof.
  destruct o as [|status body]; simpl; [discriminate|].
  intros H. apply negb_false_iff in H. rewrite H.
  destruct body; split; try intros ?; discriminate.
Qed.

(** One pass through the [try] block. *)
Lemma try_block_run (url : string) (E : env) (w : world) :
  (response <- client_get url 10%float ;;
   raise_for_status response ;;;
   data <- response_json response ;;
   ret (Some data)) E w
  = (attempt_result (remote E url (requests w)),
     {| requests := S (requests w); trace := trace w ++ [EvGet url 10%float] |}).
Proof.
  unfold bind, client_get, raise_for_status, response_json, attempt_result.
  destruct (remote E url (requests w)) as [|status body]; [reflexivity|].
  simpl. destruct (is_success status); [|reflexivity].
  destruct body; reflexivity.
Qed.

(** A failed attempt that is not the last: sleep, then go on. *)
Lemma fetch_attempts_retry url attempt rest E w :
  attempt_fails (remote E url (requests w)) = true →
  (attempt <? MAX_RETRIES - 1)%nat = true →
  fetch_attempts url (attempt :: rest) E w
  = fetch_attempts url rest E
      {| requests := S (requests w);
         trace := trace w ++ [EvGet url 10%float; EvSleep (2 ^ attempt)] |}.
Proof.
  intros Hf Hlt. cbn [fetch_attempts]. unfold try_except at 1.
  rewrite try_block_run, Hlt.
  destruct (attempt_fails_caught _ Hf) as [-> | [status ->]];
    unfold bind, asyncio_sleep, emit; cbn [requests trace];
    rewrite <- app_assoc; reflexivity.
Qed.

(** A failed last attempt: [None], without a sleep. *)
Lemma fetch_attempts_give_up url attempt rest E w :
  attempt_fails (remote E url (requests w)) = true →
  (attempt <? MAX_RETRIES - 1)%nat = false →
  fetch_attempts url (attempt :: rest) E w
  = (Return None,
     {| requests := S (requests w); trace := trace w ++ [EvGet url 10%float] |}).
Proof.
  intros Hf Hlt. cbn [fetch_attempts]. unfold try_except at 1.
  rewrite try_block_run, Hlt.
  destruct (attempt_fails_caught _ Hf) as [-> | [status ->]]; reflexivity.
Qed.

(** An attempt that does not fail ends the loop with its result. *)
Lemma fetch_attempts_done url attempt rest E w :
  attempt_fails (remote E url (requests w)) = false →
  fetch_attempts url (attempt :: rest) E w
  = (attempt_result (remote E url (requests w)),
     {| requests := S (requests w); trace := trace w ++ [EvGet url 10%float] |}).
Proof.
  intros Hf. cbn [fetch_attempts]. unfold try_except at 1.
  rewrite try_block_run.
  destruct (attempt_succeeds_not_caught _ Hf) as [H1 H2].
  destruct (attempt_result (remote E url (requests w))) as [a|[]];
    try reflexivity; [congruence | exfalso; eapply H2; reflexivity].
Qed.

(** The whole run of the fetcher, by the outcomes of its attempts. *)
Lemma fetch_with_retry_run (url : string) (E : env) (w : world) :
  let fails0 := attempt_fails (remote E url (requests w)) in
  let fails1 := attempt_fails (remote E url (S (requests w))) in
  let fails2 := attempt_fails (remote E url (S (S (requests w)))) in
  fetch_with_retry url E w
  = (if fails0 then
       if fails1 then
         if fails2 then Return None
         else attempt_result (remote E url (S (S (requests w))))
       else attempt_result (remote E url (S (requests w)))
     else attempt_result (remote E url (requests w)),
     {| requests := requests w + count_gets (fetch_events url fails0 fails1);
        trace := trace w ++ fetch_events url fails0 fails1 |}).
Proof.
  intros fails0 fails1 fails2. unfold fetch_with_retry. cbn [seq MAX_RETRIES].
  destruct fails0 eqn:H0; subst fails0.
  - rewrite fetch_attempts_retry by (cbn [requests]; first [assumption | reflexivity]).
    destruct fails1 eqn:H1; subst fails1.
    + rewrite fetch_attempts_retry by (cbn [requests]; first [assumption | reflexivity]). cbn [requests trace].
      rewrite <- app_assoc.
      destruct fails2 eqn:H2; subst fails2.
      * rewrite fetch_attempts_give_up by (cbn [requests]; first [assumption | reflexivity]). cbn [requests trace].
        rewrite <- app_assoc. cbn. rewrite Nat.add_comm. reflexivity.
      * rewrite fetch_attempts_done by (cbn [requests]; first [assumption | reflexivity]). cbn [requests trace].
        rewrite <- app_assoc. cbn. rewrite Nat.add_comm. reflexivity.
    + rewrite fetch_attempts_done by (cbn [requests]; first [assumption | reflexivity]). cbn [requests trace].
      rewrite <- app_assoc. cbn. rewrite Nat.add_comm. reflexivity.
  - rewrite fetch_attempts_done by (cbn [requests]; first [assumption | reflexivity]).
    cbn. rewrite Nat.add_comm. reflexivity.
Qed.

(** C9 (as amended): the fetcher sends at most 3 requests; the events of a
    call are fixed by whether attempts 0 and 1 fail; after a failed attempt 0
    it sleeps 1 second, after failed attempts 0 and 1 it sleeps 2 seconds
    after the second, it never sleeps after an attempt that did not fail, and
    nothing at all follows the third request: every sleep is of 1 or 2
    seconds, and a third failure returns [None] at once. *)
Theorem fetch_with_retry_backoff (url : string) (E : env) (w : world) :
  ∃ evs,
    evs = fetch_events url (attempt_fails (remote E url (requests w)))
            (attempt_fails (remote E url (S (requests w))))
    ∧ trace (snd (fetch_with_retry url E w)) = trace w ++ evs
    ∧ requests (snd (fetch_with_retry url E w)) = (requests w + count_gets evs)%nat
    ∧ (1 ≤ count_gets evs ≤ 3)%nat
    ∧ event_after_get 0 evs
      = (if attempt_fails (remote E url (requests w))
         then Some (EvSleep (2 ^ 0)) else None)
    ∧ event_after_get 1 evs
      = (if attempt_fails (remote E url (requests w))
            && attempt_fails (remote E url (S (requests w)))
         then Some (EvSleep (2 ^ 1)) else None)
    ∧ event_after_get 2 evs = None
    ∧ (∀ s, EvSleep s ∈ evs → s = 1%nat ∨ s = 2%nat)
    ∧ (attempt_fails (remote E url (requests w)) = true →
       attempt_fails (remote E url (S (requests w))) = true →
       attempt_fails (remote E url (S (S (requests w)))) = true →
       fst (fetch_with_retry url E w) = Return None).
Proof.
  eexists. split; [reflexivity|].
  pose proof (fetch_with_retry_run url E w) as Hrun. cbv zeta in Hrun.
  rewrite Hrun. cbn [fst snd trace requests].
  split; [reflexivity|]. split; [reflexivity|].
  destruct (attempt_fails (remote E url (requests w)));
    destruct (attempt_fails (remote E url (S (requests w))));
    cbn; (split; [lia|]); repeat (split; [reflexivity|]);
    (split; [|try discriminate; intros _ _ ->; reflexivity]);
    intros s Hs; rewrite ?elem_of_cons in Hs;
    repeat match goal with
      | H : _ ∨ _ |- _ => destruct H as [H|H]
      | H : EvSleep _ = _ |- _ => inversion H; clear H; auto
      | H : _ ∈ [] |- _ => apply elem_of_nil in H; destruct H
      end.
Qed.

(** C9, counterexample to a wait of 4 seconds after attempt 2: with the
    provider down, attempt 2 fails like the two before it, and the fetcher
    returns [None] with two sleeps only, of 1 and 2 seconds, nothing
    following the third request. *)
Lemma no_wait_after_third_attempt :
  attempt_fails (remote env_down "u" 2) = true
  ∧ fst (fetch_with_retry "u" env_down initial_world) = Return None
  ∧ trace (snd (fetch_with_retry "u" env_down initial_world))
    = [EvGet "u" 10%float; EvSleep 1; EvGet "u" 10%float; EvSleep 2;
       EvGet "u" 10%float]
  ∧ event_after_get 2 (trace (snd (fetch_with_retry "u" env_down initial_world)))
    ≠ Some (EvSleep (2 ^ 2))
  ∧ ¬ EvSleep (2 ^ 2) ∈ trace (snd (fetch_with_retry "u" env_down initial_world)).
Proof.
  split; [reflexivity|]. split; [reflexivity|]. split; [reflexivity|].
  split; [discriminate|].
  change (trace (snd (fetch_with_retry "u" env_down initial_world)))
    with [EvGet "u" 10%float; EvSleep 1; EvGet "u" 10%float; EvSleep 2;
          EvGet "u" 10%float].
  rewrite !elem_of_cons, elem_of_nil.
  intros H. repeat (destruct H as [H|H]; [discriminate H|]). exact H.
Qed.

(** ** The endpoint *)

Lemma get_summary_run impl start end_ b E w :
  date_gtb start end_ = false →
  get_summary impl start end_ b E w
  = match fetch_with_retry (summary_url start end_) E w with
    | (Return (Some d), w') =>
        (calculate_summary impl (set_source d "api") (breakdown_str b), w')
    | (Return None, w') =>
        match load_fallback E w' with
        | (Return d, w'') =>
            (calculate_summary impl (set_source d "fallback") (breakdown_str b), w'')
        | (Raise e, w'') => (Raise e, w'')
        end
    | (Raise e, w') => (Raise e, w')
    end.
Proof.
  intros Hle. unfold get_summary. rewrite Hle.
  fold (summary_url start end_). unfold bind at 1.
  destruct (fetch_with_retry (summary_url start end_) E w) as [[[d|]|e] w'].
  - reflexivity.
  - unfold bind. destruct (load_fallback E w') as [[d|e] w'']; reflexivity.
  - reflexivity.
Qed.

Lemma date_gtb_irrefl (d : datetime_date) : date_gtb d d = false.
Proof. unfold date_gtb. rewrite !N.compare_refl. reflexivity. Qed.

Lemma calculate_summary_raise_inv impl data bt e :
  calculate_summary impl data bt = Raise e →
  e = HTTPException 404 "No rate data available".
Proof.
  unfold calculate_summary.
  destruct (bool_decide _); [congruence|discriminate].
Qed.

Lemma attempt_result_not_failing (o : http_outcome) :
  attempt_fails o = false →
  (∃ d, attempt_result o = Return (Some d)) ∨ attempt_result o = Raise JSONDecodeError.
Proof.
  destruct o as [|status body]; simpl; [discriminate|].
  intros H. apply negb_false_iff in H. rewrite H.
  destruct body; eauto.
Qed.

(** With a valid range the endpoint raises no 400. *)
Lemma get_summary_valid_range_no_400 impl start end_ b E w detail :
  date_gtb start end_ = false →
  fst (get_summary impl start end_ b E w) ≠ Raise (HTTPException 400 detail).
Proof.
  intros Hle. rewrite (get_summary_run impl start end_ b E w Hle).
  destruct (fetch_with_retry (summary_url start end_) E w) as [r w'] eqn:Hf.
  assert (Hr : r = Return None ∨ (∃ d, r = Return (Some d)) ∨ r = Raise JSONDecodeError).
  { pose proof (fetch_with_retry_run (summary_url start end_) E w) as Hrun.
    cbv zeta in Hrun. rewrite Hrun in Hf. injection Hf as <- _.
    repeat match goal with
      | |- context [if attempt_fails ?o then _ else _] =>
          let H := fresh in
          destruct (attempt_fails o) eqn:H;
          [|right; apply attempt_result_not_failing; exact H]
      end.
    left; reflexivity. }
  assert (Hcalc : ∀ d tag, calculate_summary impl (set_source d tag) (breakdown_str b)
                           ≠ Raise (HTTPException 400 detail)).
  { intros d tag Hc. apply calculate_summary_raise_inv in Hc. discriminate. }
  destruct Hr as [-> | [[d ->] | ->]]; cbn [fst].
  - unfold load_fallback. destruct (fallback_file E); cbn [fst];
      try discriminate. apply Hcalc.
  - apply Hcalc.
  - discriminate.
Qed.

(** C5: for every request whose start date is after its end date, the
    endpoint raises the 400 error "Start date must be before end date" and
    leaves the world as it found it: no request is sent, nothing sleeps, the
    snapshot is not read.  A start date that is not after the end date, such
    as one equal to it, never meets that error. *)
Theorem invalid_range_rejected_before_fetch impl start end_ b E w :
  (date_gtb start end_ = true →
     get_summary impl start end_ b E w
     = (Raise (HTTPException 400 "Start date must be before end date"), w))
  ∧ (date_gtb start end_ = false →
     ∀ detail,
       fst (get_summary impl start end_ b E w) ≠ Raise (HTTPException 400 detail))
  ∧ date_gtb start start = false.
Proof.
  split; [|split].
  - intros Hgt. unfold get_summary. rewrite Hgt. reflexivity.
  - intros Hle detail. apply get_summary_valid_range_no_400, Hle.
  - apply date_gtb_irrefl.
Qed.

Lemma invalid_range_rejected_before_fetch_witness :
  get_summary LeftToRight (jan 3) (jan 2) BreakdownDay env_down initial_world
  = (Raise (HTTPException 400 "Start date must be before end date"), initial_world).
Proof.
  apply (invalid_range_rejected_before_fetch LeftToRight (jan 3) (jan 2)
           BreakdownDay env_down initial_world).
  reflexivity.
Defined.

(** C3: when the three attempts all fail, by a network failure or by a
    response without a success status, the fetcher returns [None] and raises
    nothing; the endpoint, asked for a valid range and finding a readable
    snapshot with a non-empty series, then returns a result tagged
    "fallback" whose totals and breakdown are those of the snapshot's rates,
    after exactly three requests, sleeps of 1 and 2 seconds, and one read of
    the snapshot. *)
Theorem fallback_when_remote_down impl start end_ b E w snap rates :
  date_gtb start end_ = false →
  (∀ url k, (k < 3)%nat → attempt_fails (remote E url (requests w + k)) = true) →
  fallback_file E = FileContent snap →
  rd_rates snap = Some rates →
  rates ≠ ∅ →
  (∀ url, fst (fetch_with_retry url E w) = Return None)
  ∧ ∃ r,
      fst (get_summary impl start end_ b E w) = Return r
      ∧ source r = "fallback"%string
      ∧ Return r = calculate_summary impl (set_source snap "fallback") (breakdown_str b)
      ∧ totals r = compute_totals impl (rates_in_order rates)
      ∧ (b = BreakdownDay → is_Some (breakdown r))
      ∧ (∀ days, breakdown r = Some days →
           date <$> days = sorted_dates rates ∧ rate <$> days = rates_in_order rates)
      ∧ trace (snd (get_summary impl start end_ b E w))
        = trace w ++ [EvGet (summary_url start end_) 10%float; EvSleep 1;
                      EvGet (summary_url start end_) 10%float; EvSleep 2;
                      EvGet (summary_url start end_) 10%float; EvOpenFallback].
Proof.
  intros Hle Hdown Hfile Hrates Hne.
  assert (Hfetch : ∀ url,
    fetch_with_retry url E w
    = (Return None,
       {| requests := requests w + 3;
          trace := trace w ++ [EvGet url 10%float; EvSleep 1; EvGet url 10%float;
                               EvSleep 2; EvGet url 10%float] |})).
  { intros url.
    pose proof (Hdown url 0%nat ltac:(lia)) as H0.
    pose proof (Hdown url 1%nat ltac:(lia)) as H1.
    pose proof (Hdown url 2%nat ltac:(lia)) as H2.
    rewrite Nat.add_0_r in H0. rewrite Nat.add_1_r in H1.
    replace (requests w + 2)%nat with (S (S (requests w))) in H2 by lia.
    pose proof (fetch_with_retry_run url E w) as Hrun. cbv zeta in Hrun.
    rewrite Hrun, H0, H1, H2. reflexivity. }
  split; [intros url; rewrite Hfetch; reflexivity|].
  rewrite (get_summary_run impl start end_ b E w Hle), Hfetch.
  unfold load_fallback. rewrite Hfile. cbn [fst snd trace requests].
  rewrite (calculate_summary_nonempty impl (set_source snap "fallback") rates
             (breakdown_str b) Hrates Hne).
  eexists. split; [reflexivity|]. cbn [source totals breakdown set_source rd_source default].
  split; [reflexivity|]. split; [reflexivity|]. split; [reflexivity|].
  split; [intros ->; cbn; eauto|].
  split.
  - intros days Hdays. destruct (String.eqb _ _); [|discriminate].
    injection Hdays as <-. split; [apply days_from_dates|apply days_from_rates].
  - rewrite <- app_assoc. reflexivity.
Qed.

Lemma fallback_when_remote_down_witness :
  (∀ url, fst (fetch_with_retry url env_503 initial_world) = Return None)
  ∧ ∃ r,
      fst (get_summary Compensated (jan 1) (jan 2) BreakdownDay env_503 initial_world)
      = Return r
      ∧ source r = "fallback"%string
      ∧ Return r = calculate_summary Compensated (set_source example_data "fallback")
                     (breakdown_str BreakdownDay)
      ∧ totals r = compute_totals Compensated (rates_in_order example_rates)
      ∧ (BreakdownDay = BreakdownDay → is_Some (breakdown r))
      ∧ (∀ days, breakdown r = Some days →
           date <$> days = sorted_dates example_rates
           ∧ rate <$> days = rates_in_order example_rates)
      ∧ trace (snd (get_summary Compensated (jan 1) (jan 2) BreakdownDay env_503
                      initial_world))
        = trace initial_world
          ++ [EvGet (summary_url (jan 1) (jan 2)) 10%float; EvSleep 1;
              EvGet (summary_url (jan 1) (jan 2)) 10%float; EvSleep 2;
              EvGet (summary_url (jan 1) (jan 2)) 10%float; EvOpenFallback].
Proof.
  apply (fallback_when_remote_down Compensated (jan 1) (jan 2) BreakdownDay
           env_503 initial_world example_data example_rates).
  - reflexivity.
  - intros url k _. reflexivity.
  - reflexivity.
  - reflexivity.
  - apply insert_non_empty.
Defined.

(** ** Health check *)

(** X1: the health check never raises and always answers with status "ok";
    it sends exactly one request, to the provider's [latest] URL with a
    timeout of 5 seconds, sleeps never and does not read the snapshot; and it
    reports the provider reachable exactly when that request got a response
    with status 200 (a network failure, or any other status, is
    "not reachable"). *)
Theorem health_check_reports_status_200 (E : env) (w : world) :
  ∃ reachable,
    health_check E w
    = (Return {| status := "ok"; api_reachable := reachable |},
       {| requests := S (requests w);
          trace := trace w ++ [EvGet health_url 5%float] |})
    ∧ (reachable = true
       ↔ ∃ body, remote E health_url (requests w) = HttpResponse 200 body).
Proof.
  unfold health_check, bind, try_except_RequestError, client_get, ret.
  destruct (remote E health_url (requests w)) as [|code body] eqn:Hr.
  - eexists. split; [reflexivity|].
    split; [discriminate|]. intros [body Hb]. discriminate.
  - eexists. split; [reflexivity|]. cbn [fst].
    rewrite Z.eqb_eq. split.
    + intros ->. eauto.
    + intros [body' [= -> _]]. reflexivity.
Qed.

(** ** The fetcher: the first attempt that does not fail decides *)

Lemma fetch_with_retry_first_answer url E w k :
  (k < 3)%nat →
  (∀ j, (j < k)%nat → attempt_fails (remote E url (requests w + j)) = true) →
  attempt_fails (remote E url (requests w + k)) = false →
  fetch_with_retry url E w
  = (attempt_result (remote E url (requests w + k)),
     {| requests := requests w + S k; trace := trace w ++ retry_events url k |}).
Proof.
  intros Hk Hfail Hok.
  pose proof (fetch_with_retry_run url E w) as Hrun. cbv zeta in Hrun.
  rewrite Hrun. clear Hrun.
  destruct k as [|[|[|k]]]; [| | |lia].
  - rewrite Nat.add_0_r in Hok. rewrite Hok. rewrite Nat.add_0_r.
    cbn; repeat f_equal; lia.
  - pose proof (Hfail 0%nat ltac:(lia)) as H0. rewrite Nat.add_0_r in H0.
    rewrite Nat.add_1_r in Hok. rewrite H0, Hok, Nat.add_1_r.
    cbn; repeat f_equal; lia.
  - pose proof (Hfail 0%nat ltac:(lia)) as H0. rewrite Nat.add_0_r in H0.
    pose proof (Hfail 1%nat ltac:(lia)) as H1. rewrite Nat.add_1_r in H1.
    replace (requests w + 2)%nat with (S (S (requests w))) in * by lia.
    rewrite H0, H1, Hok. cbn; repeat f_equal; lia.
Qed.

Lemma fetch_with_retry_all_fail url E w :
  all_attempts_fail E url w = true →
  fetch_with_retry url E w
  = (Return None,
     {| requests := requests w + 3;
        trace := trace w ++ [EvGet url 10%float; EvSleep 1; EvGet url 10%float;
                             EvSleep 2; EvGet url 10%float] |}).
Proof.
  unfold all_attempts_fail. rewrite !andb_true_iff. intros [[H0 H1] H2].
  pose proof (fetch_with_retry_run url E w) as Hrun. cbv zeta in Hrun.
  rewrite Hrun, H0, H1, H2. reflexivity.
Qed.


(** X2: when the first [k] attempts fail ([k] being 0, 1 or 2) and the next
    one gets a success status with a JSON body, the fetcher returns that body
    whatever the later outcomes would be, after [k + 1] requests and [k]
    sleeps of 1, 2, ... seconds, [2^k - 1] seconds in all: a success at the
    second attempt costs exactly one sleep of 1 second. *)
Theorem fetch_with_retry_returns_first_success url E w k code data :
  (k < 3)%nat →
  (∀ j, (j < k)%nat → attempt_fails (remote E url (requests w + j)) = true) →
  remote E url (requests w + k) = HttpResponse code (Some data) →
  is_success code = true →
  fetch_with_retry url E w
  = (Return (Some data),
     {| requests := requests w + S k; trace := trace w ++ retry_events url k |})
  ∧ count_gets (retry_events url k) = S k
  ∧ List.filter is_sleep (retry_events url k) = (λ j, EvSleep (2 ^ j)) <$> seq 0 k
  ∧ total_sleep (retry_events url k) = (2 ^ k - 1)%nat.
Proof.
  intros Hk Hfail Hresp Hcode.
  assert (Hok : attempt_fails (remote E url (requests w + k)) = false)
    by (rewrite Hresp; simpl; rewrite Hcode; reflexivity).
  rewrite (fetch_with_retry_first_answer url E w k Hk Hfail Hok), Hresp.
  cbn [attempt_result]. rewrite Hcode.
  split; [reflexivity|].
  destruct k as [|[|[|k]]]; [| | |lia]; repeat split; reflexivity.
Qed.

Lemma fetch_with_retry_returns_first_success_witness :
  fetch_with_retry "u" env_second_try initial_world
  = (Return (Some example_data),
     {| requests := 2;
        trace := [EvGet "u" 10%float; EvSleep 1; EvGet "u" 10%float] |})
  ∧ total_sleep (retry_events "u" 1) = 1%nat.
Proof.
  destruct (fetch_with_retry_returns_first_success "u" env_second_try initial_world 1 200
              example_data) as (H1 & _ & _ & H4).
  - lia.
  - intros [|j] Hj; [reflexivity|lia].
  - reflexivity.
  - reflexivity.
  - split; [exact H1|exact H4].
Defined.

(** ** The endpoint, path by path *)

Lemma get_summary_answered impl start end_ b E w k :
  date_gtb start end_ = false →
  (k < 3)%nat →
  (∀ j, (j < k)%nat →
        attempt_fails (remote E (summary_url start end_) (requests w + j)) = true) →
  attempt_fails (remote E (summary_url start end_) (requests w + k)) = false →
  get_summary impl start end_ b E w
  = (match attempt_result (remote E (summary_url start end_) (requests w + k)) with
     | Return (Some d) => calculate_summary impl (set_source d "api") (breakdown_str b)
     | Return None => Raise JSONDecodeError
     | Raise e => Raise e
     end,
     {| requests := requests w + S k;
        trace := trace w ++ retry_events (summary_url start end_) k |}).
Proof.
  intros Hle Hk Hfail Hok.
  rewrite (get_summary_run impl start end_ b E w Hle).
  rewrite (fetch_with_retry_first_answer _ E w k Hk Hfail Hok).
  destruct (attempt_result_not_failing _ Hok) as [[d ->] | ->]; reflexivity.
Qed.

Lemma get_summary_fallback impl start end_ b E w :
  date_gtb start end_ = false →
  all_attempts_fail E (summary_url start end_) w = true →
  get_summary impl start end_ b E w
  = (match fallback_file E with
     | FileMissing => Raise FileNotFoundError
     | FileMalformed => Raise JSONDecodeError
     | FileContent d =>
         calculate_summary impl (set_source d "fallback") (breakdown_str b)
     end,
     {| requests := requests w + 3;
        trace := trace w ++ [EvGet (summary_url start end_) 10%float; EvSleep 1;
                             EvGet (summary_url start end_) 10%float; EvSleep 2;
                             EvGet (summary_url start end_) 10%float;
                             EvOpenFallback] |}).
Proof.
  intros Hle Hall.
  rewrite (get_summary_run impl start end_ b E w Hle).
  rewrite (fetch_with_retry_all_fail _ E w Hall).
  unfold load_fallback. cbn [requests trace]. rewrite <- app_assoc.
  destruct (fallback_file E); reflexivity.
Qed.

(** X3: when the range is valid and the first attempt that does not fail
    (attempt 0, 1 or 2) brings a non-empty series, the endpoint returns the
    summary of that series tagged "api", whatever [_source] the provider's
    document carried itself; it has sent one request per attempt and slept
    between them, and it has not read the snapshot. *)
Theorem live_answer_is_tagged_api impl start end_ b E w k code data rates :
  date_gtb start end_ = false →
  (k < 3)%nat →
  (∀ j, (j < k)%nat →
        attempt_fails (remote E (summary_url start end_) (requests w + j)) = true) →
  remote E (summary_url start end_) (requests w + k) = HttpResponse code (Some data) →
  is_success code = true →
  rd_rates data = Some rates →
  rates ≠ ∅ →
  ∃ r,
    get_summary impl start end_ b E w
    = (Return r,
       {| requests := requests w + S k;
          trace := trace w ++ retry_events (summary_url start end_) k |})
    ∧ source r = "api"%string
    ∧ totals r = compute_totals impl (rates_in_order rates)
    ∧ breakdown r = match b with
                    | BreakdownDay => Some (days_from rates None (sorted_dates rates))
                    | BreakdownNone => None
                    end
    ∧ existsb opens_fallback (retry_events (summary_url start end_) k) = false.
Proof.
  intros Hle Hk Hfail Hresp Hcode Hrates Hne.
  assert (Hok : attempt_fails (remote E (summary_url start end_) (requests w + k))
                = false)
    by (rewrite Hresp; simpl; rewrite Hcode; reflexivity).
  rewrite (get_summary_answered impl start end_ b E w k Hle Hk Hfail Hok), Hresp.
  cbn [attempt_result]. rewrite Hcode.
  rewrite (calculate_summary_nonempty impl (set_source data "api") rates
             (breakdown_str b) Hrates Hne).
  eexists. split; [reflexivity|]. cbn [source totals breakdown set_source rd_source default].
  split; [reflexivity|]. split; [reflexivity|].
  split; [destruct b; reflexivity|].
  destruct k as [|[|[|k]]]; [| | |lia]; reflexivity.
Qed.

Lemma live_answer_is_tagged_api_witness :
  ∃ r,
    get_summary Compensated (jan 1) (jan 2) BreakdownNone env_second_try initial_world
    = (Return r,
       {| requests := requests initial_world + 2;
          trace := trace initial_world ++ retry_events (summary_url (jan 1) (jan 2)) 1 |})
    ∧ source r = "api"%string
    ∧ totals r = compute_totals Compensated (rates_in_order example_rates)
    ∧ breakdown r = None
    ∧ existsb opens_fallback (retry_events (summary_url (jan 1) (jan 2)) 1) = false.
Proof.
  apply (live_answer_is_tagged_api Compensated (jan 1) (jan 2) BreakdownNone
           env_second_try initial_world 1 200 example_data example_rates).
  - reflexivity.
  - lia.
  - intros [|j] Hj; [reflexivity|lia].
  - reflexivity.
  - reflexivity.
  - reflexivity.
  - apply insert_non_empty.
Defined.



Lemma retry_events_budget url k :
  (k < 3)%nat →
  count_gets (retry_events url k) = S k
  ∧ (total_sleep (retry_events url k) ≤ 3)%nat
  ∧ existsb opens_fallback (retry_events url k) = false.
Proof.
  intros Hk. destruct k as [|[|[|k]]]; [| | |lia]; cbn; repeat split; lia.
Qed.


(** X6: a response with a success status whose body is not JSON is not
    retried and not replaced by the snapshot: when it comes at the first
    attempt that does not fail, the fetcher raises the decoding error at once,
    and the endpoint, asked for a valid range, raises it too, the snapshot
    unread. *)
Theorem undecodable_body_is_not_recovered impl start end_ b E w k code :
  date_gtb start end_ = false →
  (k < 3)%nat →
  (∀ j, (j < k)%nat →
        attempt_fails (remote E (summary_url start end_) (requests w + j)) = true) →
  remote E (summary_url start end_) (requests w + k) = HttpResponse code None →
  is_success code = true →
  fetch_with_retry (summary_url start end_) E w
  = (Raise JSONDecodeError,
     {| requests := requests w + S k;
        trace := trace w ++ retry_events (summary_url start end_) k |})
  ∧ get_summary impl start end_ b E w
    = (Raise JSONDecodeError,
       {| requests := requests w + S k;
          trace := trace w ++ retry_events (summary_url start end_) k |})
  ∧ existsb opens_fallback (retry_events (summary_url start end_) k) = false.
Proof.
  intros Hle Hk Hfail Hresp Hcode.
  assert (Hok : attempt_fails (remote E (summary_url start end_) (requests w + k))
                = false)
    by (rewrite Hresp; simpl; rewrite Hcode; reflexivity).
  rewrite (get_summary_answered impl start end_ b E w k Hle Hk Hfail Hok).
  rewrite (fetch_with_retry_first_answer _ E w k Hk Hfail Hok), Hresp.
  cbn [attempt_result]. rewrite Hcode.
  split; [reflexivity|]. split; [reflexivity|].
  apply retry_events_budget, Hk.
Qed.

Lemma undecodable_body_is_not_recovered_witness :
  fetch_with_retry (summary_url (jan 1) (jan 2)) env_not_json initial_world
  = (Raise JSONDecodeError,
     {| requests := requests initial_world + 1;
        trace := trace initial_world ++ retry_events (summary_url (jan 1) (jan 2)) 0 |})
  ∧ get_summary LeftToRight (jan 1) (jan 2) BreakdownDay env_not_json initial_world
    = (Raise JSONDecodeError,
       {| requests := requests initial_world + 1;
          trace := trace initial_world ++ retry_events (summary_url (jan 1) (jan 2)) 0 |})
  ∧ existsb opens_fallback (retry_events (summary_url (jan 1) (jan 2)) 0) = false.
Proof.
  apply (undecodable_body_is_not_recovered LeftToRight (jan 1) (jan 2) BreakdownDay
           env_not_json initial_world 0 200).
  - reflexivity.
  - lia.
  - intros j Hj. lia.
  - reflexivity.
  - reflexivity.
Defined.



(** X8: beneath the snapshot there is nothing: when the range is valid and
    the three attempts all fail, a missing snapshot makes the endpoint raise
    the file error and a malformed one the decoding error, after the three
    requests, the two sleeps and the attempt to read it. *)
Theorem unreadable_snapshot_is_fatal impl start end_ b E w :
  date_gtb start end_ = false →
  all_attempts_fail E (summary_url start end_) w = true →
  (∀ d, fallback_file E ≠ FileContent d) →
  fst (get_summary impl start end_ b E w)
  = Raise (match fallback_file E with
           | FileMissing => FileNotFoundError
           | _ => JSONDecodeError
           end)
  ∧ trace (snd (get_summary impl start end_ b E w))
    = trace w ++ [EvGet (summary_url start end_) 10%float; EvSleep 1;
                  EvGet (summary_url start end_) 10%float; EvSleep 2;
                  EvGet (summary_url start end_) 10%float; EvOpenFallback].
Proof.
  intros Hle Hall Hfile.
  rewrite (get_summary_fallback impl start end_ b E w Hle Hall).
  cbn [fst snd trace]. split; [|reflexivity].
  destruct (fallback_file E) as [| |d]; try reflexivity.
  exfalso. exact (Hfile d eq_refl).
Qed.

Lemma unreadable_snapshot_is_fatal_witness :
  fst (get_summary LeftToRight (jan 1) (jan 2) BreakdownDay env_nothing initial_world)
  = Raise FileNotFoundError
  ∧ trace (snd (get_summary LeftToRight (jan 1) (jan 2) BreakdownDay env_nothing
                  initial_world))
    = trace initial_world
      ++ [EvGet (summary_url (jan 1) (jan 2)) 10%float; EvSleep 1;
          EvGet (summary_url (jan 1) (jan 2)) 10%float; EvSleep 2;
          EvGet (summary_url (jan 1) (jan 2)) 10%float; EvOpenFallback].
Proof.
  apply (unreadable_snapshot_is_fatal LeftToRight (jan 1) (jan 2) BreakdownDay
           env_nothing initial_world).
  - reflexivity.
  - reflexivity.
  - intros d. discriminate.
Defined.

(** X9: with the provider down, a valid range is answered from the
    snapshot whatever the range is: two requests for different valid ranges
    get the same answer. *)
Theorem fallback_ignores_the_range impl start end_ start' end_' b E w w' :
  date_gtb start end_ = false →
  date_gtb start' end_' = false →
  all_attempts_fail E (summary_url start end_) w = true →
  all_attempts_fail E (summary_url start' end_') w' = true →
  fst (get_summary impl start end_ b E w)
  = fst (get_summary impl start' end_' b E w').
Proof.
  intros Hle Hle' Hall Hall'.
  rewrite (get_summary_fallback impl start end_ b E w Hle Hall).
  rewrite (get_summary_fallback impl start' end_' b E w' Hle' Hall').
  reflexivity.
Qed.

Lemma fallback_ignores_the_range_witness :
  fst (get_summary LeftToRight (jan 1) (jan 2) BreakdownDay env_down initial_world)
  = fst (get_summary LeftToRight (jan 5) (jan 31) BreakdownDay env_down initial_world).
Proof.
  apply (fallback_ignores_the_range LeftToRight (jan 1) (jan 2) (jan 5) (jan 31)
           BreakdownDay env_down initial_world initial_world); reflexivity.
Defined.

Lemma calculate_summary_modes impl data bt bt' :
  match calculate_summary impl data bt, calculate_summary impl data bt' with
  | Return r, Return r' => totals r = totals r' ∧ source r = source r'
  | Raise e, Raise e' => e = e'
  | _, _ => False
  end.
Proof.
  unfold calculate_summary. destruct (bool_decide _); [reflexivity|].
  split; reflexivity.
Qed.

(** X10: the breakdown mode changes nothing but the breakdown: for the same
    request in the same surroundings, the two modes send the same requests,
    sleep the same and read the snapshot alike, raise the same error if any,
    and otherwise return the same totals and the same source tag. *)
Theorem mode_changes_only_the_breakdown impl start end_ b b' E w :
  snd (get_summary impl start end_ b E w) = snd (get_summary impl start end_ b' E w)
  ∧ match fst (get_summary impl start end_ b E w),
          fst (get_summary impl start end_ b' E w) with
    | Return r, Return r' => totals r = totals r' ∧ source r = source r'
    | Raise e, Raise e' => e = e'
    | _, _ => False
    end.
Proof.
  destruct (date_gtb start end_) eqn:Hle.
  { unfold get_summary. rewrite Hle. split; reflexivity. }
  rewrite !(get_summary_run impl start end_ _ E w Hle).
  destruct (fetch_with_retry (summary_url start end_) E w) as [[[d|]|e] w1].
  - split; [reflexivity|]. cbn [fst]. apply calculate_summary_modes.
  - destruct (load_fallback E w1) as [[d|e] w2].
    + split; [reflexivity|]. cbn [fst]. apply calculate_summary_modes.
    + split; reflexivity.
  - split; reflexivity.
Qed.

(** ** The summarizer, further *)

Lemma usd_rate_alt (rates : gmap string quotes) d :
  usd_rate rates d = default 0%float (quote_usd <$> rates !! d).
Proof.
  unfold usd_rate, quote_usd. rewrite lookup_total_alt.
  destruct (rates !! d); reflexivity.
Qed.

Lemma sorted_dates_ext (rates rates' : gmap string quotes) :
  (∀ d, is_Some (rates !! d) ↔ is_Some (rates' !! d)) →
  sorted_dates rates = sorted_dates rates'.
Proof.
  intros Hdom.
  apply (StronglySorted_unique String.le); try apply sorted_dates_sorted.
  apply NoDup_Permutation; try apply sorted_dates_NoDup.
  intros d. rewrite !sorted_dates_elem. apply Hdom.
Qed.

(** X11: the summary reads nothing of a series but its dates and their USD
    quotes: two documents with the same source tag whose series have the same
    dates and, date by date, the same USD quote (absent counting as 0.0) get
    the same answer, whatever other currencies their entries hold. *)
Theorem summary_reads_only_usd impl rates rates' src bt :
  (∀ d, quote_usd <$> rates !! d = quote_usd <$> rates' !! d) →
  calculate_summary impl {| rd_rates := Some rates; rd_source := src |} bt
  = calculate_summary impl {| rd_rates := Some rates'; rd_source := src |} bt.
Proof.
  intros Hq.
  assert (Hdom : ∀ d, is_Some (rates !! d) ↔ is_Some (rates' !! d)).
  { intros d. rewrite <- !(fmap_is_Some quote_usd), Hq. reflexivity. }
  assert (Husd : ∀ d, usd_rate rates' d = usd_rate rates d).
  { intros d. rewrite !usd_rate_alt, Hq. reflexivity. }
  destruct (decide (rates = ∅)) as [->|Hne].
  - assert (rates' = ∅) as ->; [|reflexivity].
    apply map_eq. intros d. rewrite lookup_empty.
    apply eq_None_not_Some. rewrite <- Hdom, lookup_empty. apply is_Some_None.
  - assert (Hne' : rates' ≠ ∅).
    { intros ->. apply Hne. apply map_eq. intros d. rewrite lookup_empty.
      apply eq_None_not_Some. rewrite Hdom, lookup_empty. apply is_Some_None. }
    rewrite (calculate_summary_nonempty impl
               {| rd_rates := Some rates; rd_source := src |} rates bt eq_refl Hne).
    rewrite (calculate_summary_nonempty impl
               {| rd_rates := Some rates'; rd_source := src |} rates' bt eq_refl Hne').
    unfold rates_in_order. rewrite <- (sorted_dates_ext rates rates' Hdom).
    rewrite (days_from_ext rates rates' _ _ Husd).
    rewrite (list_fmap_ext (usd_rate rates') (usd_rate rates) (sorted_dates rates))
      by (intros; apply Husd).
    reflexivity.
Qed.

Lemma summary_reads_only_usd_witness :
  calculate_summary LeftToRight
    {| rd_rates := Some gappy_rates; rd_source := None |} "day"
  = calculate_summary LeftToRight
      {| rd_rates := Some (fill_missing <$> gappy_rates); rd_source := None |} "day".
Proof.
  apply (summary_reads_only_usd LeftToRight gappy_rates (fill_missing <$> gappy_rates)).
  intros d. rewrite lookup_fmap.
  destruct (gappy_rates !! d) as [q|]; [|reflexivity].
  simpl. rewrite quote_usd_fill_missing. reflexivity.
Defined.

Lemma calculate_summary_return_inv impl data bt r :
  calculate_summary impl data bt = Return r →
  ∃ rates,
    rd_rates data = Some rates ∧ rates ≠ ∅
    ∧ r = {| breakdown :=
               if String.eqb bt "day"
               then Some (days_from rates None (sorted_dates rates)) else None;
             totals := compute_totals impl (rates_in_order rates);
             source := default "api"%string (rd_source data) |}.
Proof.
  intros Hret.
  destruct (rd_rates data) as [rates|] eqn:Hr.
  - destruct (decide (rates = ∅)) as [->|Hne].
    + rewrite calculate_summary_empty in Hret by (rewrite Hr; reflexivity).
      discriminate.
    + rewrite (calculate_summary_nonempty impl data rates bt Hr Hne) in Hret.
      injection Hret as <-. eauto.
  - rewrite calculate_summary_empty in Hret by (rewrite Hr; reflexivity).
    discriminate.
Qed.

(** X12: whenever the summarizer returns a breakdown, the totals are those
    of the very rates the breakdown lists, in its order: the start rate is the
    rate of its first entry, the end rate the rate of its last, and the
    breakdown is never empty. *)
Theorem totals_match_the_breakdown impl data bt r days :
  calculate_summary impl data bt = Return r →
  breakdown r = Some days →
  days ≠ []
  ∧ totals r = compute_totals impl (rate <$> days)
  ∧ Some (start_rate (totals r)) = rate <$> head days
  ∧ Some (end_rate (totals r)) = rate <$> last days.
Proof.
  intros Hret Hdays.
  destruct (calculate_summary_return_inv impl data bt r Hret)
    as (rates & Hr & Hne & ->).
  cbn [breakdown totals] in *.
  destruct (String.eqb bt "day"); [|discriminate]. injection Hdays as <-.
  pose proof (rates_in_order_nonempty rates Hne) as Hrs.
  pose proof (days_from_rates rates None (sorted_dates rates)) as Hd.
  fold (rates_in_order rates) in Hd.
  destruct (days_from rates None (sorted_dates rates)) as [|e l] eqn:Edays.
  { exfalso. apply Hrs. rewrite <- Hd. reflexivity. }
  split; [discriminate|]. rewrite Hd. split; [reflexivity|].
  rewrite (compute_totals_nonempty impl _ Hrs). cbn [start_rate end_rate].
  rewrite <- Hd, fmap_last. split; [reflexivity|].
  destruct (last (e :: l)) eqn:Hl; [reflexivity|].
  apply last_None in Hl. discriminate.
Qed.

Lemma totals_match_the_breakdown_witness :
  ∃ r days,
    calculate_summary Compensated gappy_data "day" = Return r
    ∧ breakdown r = Some days
    ∧ days ≠ []
    ∧ totals r = compute_totals Compensated (rate <$> days)
    ∧ Some (start_rate (totals r)) = rate <$> head days
    ∧ Some (end_rate (totals r)) = rate <$> last days.
Proof.
  eexists _, _. split; [reflexivity|]. split; [reflexivity|].
  apply (totals_match_the_breakdown Compensated gappy_data "day"); reflexivity.
Defined.

(** X13: a series with a single date gives a breakdown of one entry without
    percent change, equal start and end rates, and as total percent change the
    zero-guarded change of that rate against itself. *)
Theorem single_date_summary impl d q src bt :
  calculate_summary impl {| rd_rates := Some {[d := q]}; rd_source := src |} bt
  = Return
      {| breakdown :=
           if String.eqb bt "day"
           then Some [{| date := d; rate := quote_usd q; pct_change := None |}]
           else None;
         totals :=
           {| start_rate := quote_usd q;
              end_rate := quote_usd q;
              total_pct_change := safe_pct_change (quote_usd q) (quote_usd q);
              mean_rate :=
                py_round (py_sum impl [quote_usd q] / py_float_of_int 1)%float 4 |};
         source := default "api"%string src |}.
Proof.
  rewrite (calculate_summary_nonempty impl
             {| rd_rates := Some {[d := q]}; rd_source := src |} {[d := q]} bt eq_refl)
    by apply insert_non_empty.
  assert (Hs : sorted_dates ({[d := q]} : gmap string quotes) = [d]).
  { unfold sorted_dates. rewrite map_to_list_singleton. reflexivity. }
  assert (Hu : usd_rate {[d := q]} d = quote_usd q)
    by (apply usd_rate_lookup, lookup_singleton_eq).
  unfold rates_in_order. rewrite Hs. cbn [days_from fmap list_fmap]. rewrite Hu.
  reflexivity.
Qed.

(** ** Rates that are not finite numbers *)

Lemma pct_formula_spec (current previous : float) :
  Prim2SF (((current - previous) / previous) * 100)%float
  = SFmul prec emax
      (SFdiv prec emax (SFsub prec emax (Prim2SF current) (Prim2SF previous))
         (Prim2SF previous))
      (Prim2SF 100%float).
Proof.
  rewrite FloatAxioms.mul_spec, FloatAxioms.div_spec, FloatAxioms.sub_spec.
  reflexivity.
Qed.

Lemma py_round_non_finite (x : float) (ndigits : N) :
  (∀ s m e, Prim2SF x ≠ S754_finite s m e) → py_round x ndigits = x.
Proof.
  intros H. unfold py_round. destruct (323 <? ndigits)%N; [reflexivity|].
  destruct (Prim2SF x) as [s|s| |s m e] eqn:E; try reflexivity.
  exfalso. exact (H s m e eq_refl).
Qed.

Lemma is_nan_of_class (x : float) : Prim2SF x = S754_nan → is_nan x = true.
Proof.
  intros H. unfold is_nan. rewrite FloatAxioms.eqb_spec, H. reflexivity.
Qed.

Lemma is_infinity_of_class (x : float) s :
  Prim2SF x = S754_infinity s → is_infinity x = true.
Proof.
  intros H. unfold is_infinity.
  rewrite FloatAxioms.eqb_spec, FloatAxioms.abs_spec, H. reflexivity.
Qed.

Lemma safe_pct_change_not_guarded (current previous : float) :
  (∀ s, Prim2SF previous ≠ S754_zero s) →
  (∀ s m e, Prim2SF (((current - previous) / previous) * 100)%float
            ≠ S754_finite s m e) →
  safe_pct_change current previous = (((current - previous) / previous) * 100)%float.
Proof.
  intros Hnz Hnf. unfold safe_pct_change. rewrite eqb_zero_classify.
  destruct (Prim2SF previous) as [s|s| |s m e] eqn:E;
    try (apply py_round_non_finite, Hnf).
  exfalso. exact (Hnz s eq_refl).
Qed.

(** X14: the guard covers the zero denominator only.  A previous rate that
    is NaN or an infinity makes the percent change NaN, whatever the current
    rate; so does a NaN current rate against any previous rate but zero; and
    an infinite current rate against a finite non-zero previous rate makes it
    an infinity. *)
Theorem safe_pct_change_non_finite (current previous : float) :
  (Prim2SF previous = S754_nan ∨ (∃ s, Prim2SF previous = S754_infinity s) →
   is_nan (safe_pct_change current previous) = true)
  ∧ (Prim2SF current = S754_nan → (∀ s, Prim2SF previous ≠ S754_zero s) →
     is_nan (safe_pct_change current previous) = true)
  ∧ ((∃ s, Prim2SF current = S754_infinity s) →
     (∃ s m e, Prim2SF previous = S754_finite s m e) →
     is_infinity (safe_pct_change current previous) = true).
Proof.
  pose proof (pct_formula_spec current previous) as Hx.
  change (Prim2SF 100%float) with (S754_finite false 7036874417766400 (-46)) in Hx.
  split; [|split].
  - intros Hp.
    assert (Hnan : Prim2SF (((current - previous) / previous) * 100)%float = S754_nan).
    { rewrite Hx. destruct Hp as [Hp | [s Hp]]; rewrite Hp.
      - destruct (Prim2SF current) as [[]|[]| |? ? ?]; reflexivity.
      - destruct (Prim2SF current) as [[]|[]| |? ? ?]; destruct s; reflexivity. }
    rewrite safe_pct_change_not_guarded.
    + apply is_nan_of_class, Hnan.
    + intros s0 E. destruct Hp as [Hp | [s Hp]]; rewrite Hp in E; discriminate.
    + intros s0 m e. rewrite Hnan. discriminate.
  - intros Hc Hnz.
    assert (Hnan : Prim2SF (((current - previous) / previous) * 100)%float = S754_nan).
    { rewrite Hx, Hc. destruct (Prim2SF previous) as [[]|[]| |? ? ?]; reflexivity. }
    rewrite safe_pct_change_not_guarded.
    + apply is_nan_of_class, Hnan.
    + exact Hnz.
    + intros s0 m e. rewrite Hnan. discriminate.
  - intros [s Hc] (sp & m & e & Hp).
    assert (Hinf : Prim2SF (((current - previous) / previous) * 100)%float
                   = S754_infinity (xorb (xorb s sp) false)).
    { rewrite Hx, Hc, Hp. reflexivity. }
    rewrite safe_pct_change_not_guarded.
    + eapply is_infinity_of_class, Hinf.
    + intros s0. rewrite Hp. discriminate.
    + intros s0 m0 e0. rewrite Hinf. discriminate.
Qed.

Lemma safe_pct_change_non_finite_witness :
  is_nan (safe_pct_change 1.1%float nan) = true
  ∧ is_nan (safe_pct_change 1.1%float infinity) = true
  ∧ is_nan (safe_pct_change nan 1.1%float) = true
  ∧ is_infinity (safe_pct_change infinity 1.1%float) = true.
Proof.
  split; [|split; [|split]].
  - destruct (safe_pct_change_non_finite 1.1%float nan) as (H & _ & _).
    apply H. left. reflexivity.
  - destruct (safe_pct_change_non_finite 1.1%float infinity) as (H & _ & _).
    apply H. right. exists false. reflexivity.
  - destruct (safe_pct_change_non_finite nan 1.1%float) as (_ & H & _).
    apply H; [reflexivity|]. intros s. vm_compute. discriminate.
  - destruct (safe_pct_change_non_finite infinity 1.1%float) as (_ & _ & H).
    apply H.
    + exists false. reflexivity.
    + eexists _, _, _. vm_compute. reflexivity.
Defined.

(** ** The URL of a range *)

Lemma digit_inj (a b : N) : digit a = digit b → (a mod 10 = b mod 10)%N.
Proof.
  unfold digit. intros H.
  apply (f_equal Ascii.N_of_ascii) in H.
  pose proof (N.mod_lt a 10 ltac:(lia)) as Ha.
  pose proof (N.mod_lt b 10 ltac:(lia)) as Hb.
  rewrite !Ascii.N_ascii_embedding in H by lia.
  lia.
Qed.

(** Two numbers with the same last digit and the same other digits. *)
Lemma same_digits_step (a b : N) :
  (a mod 10 = b mod 10)%N → (a / 10 = b / 10)%N → a = b.
Proof.
  intros Hm Hd.
  rewrite (N.div_mod a 10), (N.div_mod b 10) by lia.
  rewrite Hm, Hd. reflexivity.
Qed.

Lemma pad2_inj (a b : N) :
  (a < 100)%N → (b < 100)%N →
  (a mod 10 = b mod 10)%N → ((a / 10) mod 10 = (b / 10) mod 10)%N →
  a = b.
Proof.
  intros Ha Hb H0 H1.
  assert (a / 10 < 10)%N by (apply N.Div0.div_lt_upper_bound; lia).
  assert (b / 10 < 10)%N by (apply N.Div0.div_lt_upper_bound; lia).
  rewrite !N.mod_small in H1 by assumption.
  apply same_digits_step; assumption.
Qed.

Lemma pad4_inj (a b : N) :
  (a < 10000)%N → (b < 10000)%N →
  (a mod 10 = b mod 10)%N → ((a / 10) mod 10 = (b / 10) mod 10)%N →
  ((a / 100) mod 10 = (b / 100) mod 10)%N →
  ((a / 1000) mod 10 = (b / 1000) mod 10)%N →
  a = b.
Proof.
  intros Ha Hb H0 H1 H2 H3.
  assert (a / 1000 < 10)%N by (apply N.Div0.div_lt_upper_bound; lia).
  assert (b / 1000 < 10)%N by (apply N.Div0.div_lt_upper_bound; lia).
  rewrite !N.mod_small in H3 by assumption.
  apply same_digits_step; [assumption|].
  apply same_digits_step; [assumption|].
  rewrite !N.Div0.div_div. change (10 * 10)%N with 100%N.
  apply same_digits_step; [assumption|].
  rewrite !N.Div0.div_div. exact H3.
Qed.

Lemma isoformat_app_inj (d d' : datetime_date) (rest rest' : string) :
  date_in_range d → date_in_range d' →
  (isoformat d +:+ rest)%string = (isoformat d' +:+ rest')%string →
  d = d' ∧ rest = rest'.
Proof.
  intros (Hy & Hm & Hd) (Hy' & Hm' & Hd').
  destruct d as [y m dd], d' as [y' m' dd'].
  unfold isoformat, pad4, pad2. cbn [year month day String.append].
  intros H. injection H as H1 H2 H3 H4 H5 H6 H7 H8 H9.
  cbn [year month day] in *.
  apply digit_inj in H1, H2, H3, H4, H5, H6, H7, H8.
  split; [|exact H9].
  f_equal; [apply pad4_inj|apply pad2_inj|apply pad2_inj]; assumption.
Qed.

(** X15: the URL the endpoint asks for names its range and no other: for
    dates with a four-digit year and two-digit month and day, two ranges with
    the same URL are the same range. *)
Theorem summary_url_names_the_range (start end_ start' end_' : datetime_date) :
  date_in_range start → date_in_range end_ →
  date_in_range start' → date_in_range end_' →
  summary_url start end_ = summary_url start' end_' →
  start = start' ∧ end_ = end_'.
Proof.
  intros Hs He Hs' He'. unfold summary_url. intros H.
  apply (inj (String.append FRANKFURTER_BASE)) in H.
  apply (inj (String.append "/")) in H.
  apply isoformat_app_inj in H as [-> H]; [|assumption..].
  apply (inj (String.append "..")) in H.
  apply isoformat_app_inj in H as [-> _]; [|assumption..].
  split; reflexivity.
Qed.

Lemma summary_url_names_the_range_witness :
  jan 1 = {| year := 2025; month := 1; day := 1 |}
  ∧ jan 2 = {| year := 2025; month := 1; day := 2 |}.
Proof.
  apply (summary_url_names_the_range (jan 1) (jan 2)
           {| year := 2025; month := 1; day := 1 |}
           {| year := 2025; month := 1; day := 2 |});
    try (unfold date_in_range; cbn; lia).
  reflexivity.
Defined.
